(** * SOCKS5 UDP support checker (udp-check.py): model and verified properties

    The Python program opens one TCP connection to a SOCKS5 proxy, performs
    the greeting and (optional) username/password sub-negotiation, requests
    UDP ASSOCIATE, and then probes the returned relay with an encapsulated
    DNS query sent over one UDP socket.

    The embedding follows the source function by function.  Python values
    are modelled as follows:
      - [bytes] objects are lists of [Byte.byte];
      - [int] is [Z];
      - [str] is a list of Unicode code points ([N]), so that [len(s)] and
        [len(s.encode('utf-8'))] are different quantities, as in Python;
      - exceptions are an inductive type with one constructor per class the
        program can meet;
      - the network is a record of scripted outcomes, threaded through the
        code together with a log of the socket operations performed.
    Console output ([print] under [verbose]) is not part of the model. *)

From Stdlib Require Import List ZArith NArith QArith Bool Lia.
From Stdlib.Strings Require Import String Ascii Byte.
From Stdlib Require Import DecimalString.
Import ListNotations.

Local Open Scope Z_scope.

(** ** Python values *)

Definition bytes := list byte.

(** A Python [str]: the sequence of its code points. *)
Definition str := list N.

(** A [str] literal of the source, written with an ASCII Rocq string. *)
Definition str_lit (s : string) : str :=
  map N_of_ascii (list_ascii_of_string s).

(** [len(x)] as a Python int. *)
Definition len {A : Type} (l : list A) : Z := Z.of_nat (List.length l).

(** [str(n)] / [f"{n}"] for a non-negative int. *)
Definition str_of_int (n : Z) : string :=
  NilEmpty.string_of_uint (N.to_uint (Z.to_N n)).

Definition byte_val (b : byte) : Z := Z.of_N (Byte.to_N b).

(** The byte whose value is [n mod 256]. *)
Definition byte_of_Z (n : Z) : byte :=
  match Byte.of_N (Z.to_N (n mod 256)) with
  | Some b => b
  | None => x00
  end.

Definition byte_of_N (n : N) : byte := byte_of_Z (Z.of_N n).

(** ** Exceptions and results *)

(** The exception classes raised by the program itself or by the library
    calls it makes.  All of them derive from [Exception].  Built-in
    subclasses of [ConnectionError] (reset, refused, broken pipe) are
    [ConnectionError] with the message of the operating system. *)
Inductive exn : Type :=
| ConnectionError (msg : string)
| socket_timeout
| OSError (msg : string)
| struct_error
| UnicodeEncodeError
| UnicodeDecodeError
| ValueError
| OtherException (name : string).

(** How a call ends: normally, with an exception, or with [sys.exit]. *)
Inductive result (A : Type) : Type :=
| Return (a : A)
| Raise (e : exn)
| Exit (code : Z).
Arguments Return {A} a.
Arguments Raise {A} e.
Arguments Exit {A} code.

Definition rbind {A B : Type} (r : result A) (f : A -> result B) : result B :=
  match r with
  | Return a => f a
  | Raise e => Raise e
  | Exit c => Exit c
  end.

Declare Scope pure_scope.
Delimit Scope pure_scope with pure.
Notation "x <- r ;; k" := (rbind r (fun x => k))
  (at level 61, r at next level, right associativity) : pure_scope.

(** ** The [struct] module, for the formats the program uses

    Every format of the source is a sequence of [B] (unsigned byte) and [H]
    (unsigned 16-bit) fields; [H] only occurs in network byte order. *)
Inductive code : Type := B | H.

Definition calcsize_code (c : code) : nat :=
  match c with B => 1%nat | H => 2%nat end.

Definition calcsize (fmt : list code) : nat :=
  fold_right (fun c n => (calcsize_code c + n)%nat) 0%nat fmt.

Definition pack_field (c : code) (v : Z) : result bytes :=
  match c with
  | B => if (0 <=? v) && (v <=? 255) then Return [byte_of_Z v]
         else Raise struct_error
  | H => if (0 <=? v) && (v <=? 65535)
         then Return [byte_of_Z (Z.shiftr v 8); byte_of_Z (Z.land v 255)]
         else Raise struct_error
  end.

(** [struct.pack(fmt, *vals)] *)
Fixpoint struct_pack (fmt : list code) (vals : list Z) : result bytes :=
  match fmt, vals with
  | [], [] => Return []
  | c :: fmt', v :: vals' =>
      (b <- pack_field c v ;;
       bs <- struct_pack fmt' vals' ;;
       Return (b ++ bs))%pure
  | _, _ => Raise struct_error
  end.

Fixpoint unpack_fields (fmt : list code) (data : bytes) : list Z :=
  match fmt, data with
  | B :: fmt', b :: data' => byte_val b :: unpack_fields fmt' data'
  | H :: fmt', hi :: lo :: data' =>
      (Z.shiftl (byte_val hi) 8 + byte_val lo) :: unpack_fields fmt' data'
  | _, _ => []
  end.

(** [struct.unpack(fmt, data)]: the buffer must have exactly the size of the
    format. *)
Definition struct_unpack (fmt : list code) (data : bytes) : result (list Z) :=
  if Nat.eqb (List.length data) (calcsize fmt)
  then Return (unpack_fields fmt data)
  else Raise struct_error.

(** ** UTF-8 *)

Definition cont (n : N) : byte := byte_of_N (N.lor 0x80 (N.land n 0x3F)).

(** The encoding of one code point; lone surrogates are refused, as by
    Python's strict error handler. *)
Definition encode_code_point (c : N) : result bytes :=
  (if c <? 0x80 then Return [byte_of_N c]
   else if c <? 0x800 then
     Return [byte_of_N (N.lor 0xC0 (N.shiftr c 6)); cont c]
   else if c <? 0x10000 then
     if (0xD800 <=? c) && (c <=? 0xDFFF) then Raise UnicodeEncodeError
     else Return [byte_of_N (N.lor 0xE0 (N.shiftr c 12));
                  cont (N.shiftr c 6); cont c]
   else if c <? 0x110000 then
     Return [byte_of_N (N.lor 0xF0 (N.shiftr c 18));
             cont (N.shiftr c 12); cont (N.shiftr c 6); cont c]
   else Raise UnicodeEncodeError)%N.

(** [s.encode('utf-8')] *)
Fixpoint encode_utf8 (s : str) : result bytes :=
  match s with
  | [] => Return []
  | c :: s' =>
      (b <- encode_code_point c ;;
       bs <- encode_utf8 s' ;;
       Return (b ++ bs))%pure
  end.

Definition in_range (lo hi : N) (b : byte) : bool :=
  ((lo <=? Byte.to_N b) && (Byte.to_N b <=? hi))%N.

Definition low6 (b : byte) : N := N.land (Byte.to_N b) 0x3F.

(** [data.decode('utf-8')], strict: overlong forms, surrogates and values
    above U+10FFFF are refused. *)
Fixpoint decode_utf8 (data : bytes) : result str :=
  match data with
  | [] => Return []
  | b0 :: t0 =>
      let n0 := Byte.to_N b0 in
      if (n0 <? 0x80)%N then
        (s <- decode_utf8 t0 ;; Return (n0 :: s))%pure
      else if in_range 0xC2 0xDF b0 then
        match t0 with
        | b1 :: t1 =>
            if in_range 0x80 0xBF b1 then
              (s <- decode_utf8 t1 ;;
               Return (N.lor (N.shiftl (N.land n0 0x1F) 6) (low6 b1) :: s))%pure
            else Raise UnicodeDecodeError
        | _ => Raise UnicodeDecodeError
        end
      else if in_range 0xE0 0xEF b0 then
        match t0 with
        | b1 :: b2 :: t2 =>
            let lo := if (n0 =? 0xE0)%N then 0xA0%N else 0x80%N in
            let hi := if (n0 =? 0xED)%N then 0x9F%N else 0xBF%N in
            if in_range lo hi b1 && in_range 0x80 0xBF b2 then
              (s <- decode_utf8 t2 ;;
               Return (N.lor (N.shiftl (N.land n0 0x0F) 12)
                         (N.lor (N.shiftl (low6 b1) 6) (low6 b2)) :: s))%pure
            else Raise UnicodeDecodeError
        | _ => Raise UnicodeDecodeError
        end
      else if in_range 0xF0 0xF4 b0 then
        match t0 with
        | b1 :: b2 :: b3 :: t3 =>
            let lo := if (n0 =? 0xF0)%N then 0x90%N else 0x80%N in
            let hi := if (n0 =? 0xF4)%N then 0x8F%N else 0xBF%N in
            if in_range lo hi b1 && in_range 0x80 0xBF b2
               && in_range 0x80 0xBF b3 then
              (s <- decode_utf8 t3 ;;
               Return (N.lor (N.shiftl (N.land n0 0x07) 18)
                         (N.lor (N.shiftl (low6 b1) 12)
                            (N.lor (N.shiftl (low6 b2) 6) (low6 b3))) :: s))%pure
            else Raise UnicodeDecodeError
        | _ => Raise UnicodeDecodeError
        end
      else Raise UnicodeDecodeError
  end.

(** [s.split('.')] *)
Fixpoint split_dot (s : str) : list str :=
  match s with
  | [] => [[]]
  | c :: s' =>
      if (c =? 46)%N then [] :: split_dot s'
      else match split_dot s' with
           | p :: ps => (c :: p) :: ps
           | [] => [[c]]
           end
  end.

(** ** Protocol constants: class SOCKS5 *)
Module SOCKS5.
Definition VERSION : Z := 0x05.
Definition AUTH_NONE : Z := 0x00.
Definition AUTH_USERPASS : Z := 0x02.
Definition CMD_UDP_ASSOCIATE : Z := 0x03.
Definition ATYP_IPV4 : Z := 0x01.
Definition ATYP_DOMAIN : Z := 0x03.
Definition REP_SUCCESS : Z := 0x00.

Definition ERROR_MESSAGES : list (Z * string) :=
  [ (0x01, "General server failure");
    (0x02, "Connection not allowed by ruleset");
    (0x03, "Network unreachable");
    (0x04, "Host unreachable");
    (0x05, "Connection refused");
    (0x06, "TTL expired");
    (0x07, "Command not supported");
    (0x08, "Address type not supported");
    (0x09, "UDP not supported") ]%string.
End SOCKS5.

(** [d.get(key, default)] on a dict given by its items. *)
Fixpoint dict_get {V : Type} (d : list (Z * V)) (key : Z) (default : V) : V :=
  match d with
  | [] => default
  | (k, v) :: d' => if k =? key then v else dict_get d' key default
  end.

(** ** create_dns_query *)

(** The loop body of [create_dns_query]:
    [question += struct.pack('B', len(part)) + part.encode('utf-8')]. *)
Definition add_label (question : bytes) (part : str) : result bytes :=
  (l <- struct_pack [B] [len part] ;;
   e <- encode_utf8 part ;;
   Return (question ++ l ++ e))%pure.

Fixpoint for_parts (question : bytes) (parts : list str) : result bytes :=
  match parts with
  | [] => Return question
  | part :: parts' =>
      (question' <- add_label question part ;;
       for_parts question' parts')%pure
  end.

Definition create_dns_query (domain : str) : result bytes :=
  (header <- struct_pack [H; H; H; H; H; H] [0x1234; 0x0100; 1; 0; 0; 0] ;;
   question <- for_parts [] (split_dot domain) ;;
   let question := question ++ [x00] in
   tail <- struct_pack [H; H] [1; 1] ;;
   let question := question ++ tail in
   Return (header ++ question))%pure.

(** ** The network and the socket operations *)

Inductive kind : Type := SOCK_STREAM | SOCK_DGRAM.

(** A socket object.  A check owns at most one socket of each kind. *)
Inductive socket : Type := sock (k : kind).

(** What a receive call meets: data (the empty list is end of stream), or
    an exception ([socket_timeout] when the timeout fires first). *)
Inductive recv_event : Type :=
| RecvData (data : bytes)
| RecvRaise (e : exn).

(** The socket operations that took effect, in order. *)
Inductive event : Type :=
| Socket (k : kind)
| Settimeout (k : kind) (t : Q)
| Connect (host : str) (port : Z)
| Sendall (data : bytes)
| Recv (bufsize : Z) (data : bytes)
| Sendto (data : bytes) (host : str) (port : Z)
| Recvfrom (bufsize : Z) (data : bytes)
| Close (k : kind).

(** The state threaded through the program: the scripted behaviour of the
    network, and the local variable [tcp_sock] of [check_udp_support].
      - [tcp_socket_fault], [tcp_connect_fault], [udp_socket_fault],
        [udp_sendto_fault]: the exception the call raises, if any;
      - [tcp_sendall_faults]: one entry per [sendall] call, in order (calls
        beyond the list succeed);
      - [tcp_inbox], [udp_inbox]: what successive receive calls meet; when
        the list is exhausted nothing arrives and the timeout fires. *)
Record state : Type := mkState {
  tcp_socket_fault : option exn;
  tcp_connect_fault : option exn;
  tcp_sendall_faults : list (option exn);
  tcp_inbox : list recv_event;
  udp_socket_fault : option exn;
  udp_sendto_fault : option exn;
  udp_inbox : list recv_event;
  tcp_sock : option socket
}.

Definition set_tcp_sendall_faults (fs : list (option exn)) (s : state) : state :=
  mkState (tcp_socket_fault s) (tcp_connect_fault s) fs (tcp_inbox s)
          (udp_socket_fault s) (udp_sendto_fault s) (udp_inbox s) (tcp_sock s).

Definition set_tcp_inbox (i : list recv_event) (s : state) : state :=
  mkState (tcp_socket_fault s) (tcp_connect_fault s) (tcp_sendall_faults s) i
          (udp_socket_fault s) (udp_sendto_fault s) (udp_inbox s) (tcp_sock s).

Definition set_udp_inbox (i : list recv_event) (s : state) : state :=
  mkState (tcp_socket_fault s) (tcp_connect_fault s) (tcp_sendall_faults s)
          (tcp_inbox s) (udp_socket_fault s) (udp_sendto_fault s) i (tcp_sock s).

Definition set_tcp_sock (v : option socket) (s : state) : state :=
  mkState (tcp_socket_fault s) (tcp_connect_fault s) (tcp_sendall_faults s)
          (tcp_inbox s) (udp_socket_fault s) (udp_sendto_fault s) (udp_inbox s) v.

(** A computation: from a state to its result, the state it leaves, and
    the socket operations it performed. *)
Definition M (A : Type) : Type := state -> result A * state * list event.

Definition res {A : Type} (o : result A * state * list event) : result A :=
  fst (fst o).
Definition final {A : Type} (o : result A * state * list event) : state :=
  snd (fst o).
Definition log {A : Type} (o : result A * state * list event) : list event :=
  snd o.

Definition ret {A : Type} (a : A) : M A := fun s => (Return a, s, []).

Definition raise {A : Type} (e : exn) : M A := fun s => (Raise e, s, []).

Definition lift {A : Type} (r : result A) : M A := fun s => (r, s, []).

Definition bind {A B : Type} (m : M A) (f : A -> M B) : M B :=
  fun s =>
    match m s with
    | (Return a, s', l) =>
        let '(r, s'', l') := f a s' in (r, s'', l ++ l')
    | (Raise e, s', l) => (Raise e, s', l)
    | (Exit c, s', l) => (Exit c, s', l)
    end.

Declare Scope prog_scope.
Delimit Scope prog_scope with prog.
Notation "x <- m ;; k" := (bind m (fun x => k))
  (at level 61, m at next level, right associativity) : prog_scope.
Notation "m ;; k" := (bind m (fun _ => k))
  (at level 61, right associativity) : prog_scope.

Definition emit (ev : event) : M unit := fun s => (Return tt, s, [ev]).

(** The classes named in the [except] clauses of the program. *)
Inductive exn_class : Type :=
| class_ConnectionError
| class_socket_timeout
| class_Exception.

Definition isinstance (e : exn) (c : exn_class) : bool :=
  match c, e with
  | class_ConnectionError, ConnectionError _ => true
  | class_ConnectionError, _ => false
  | class_socket_timeout, socket_timeout => true
  | class_socket_timeout, _ => false
  | class_Exception, _ => true
  end.

Fixpoint find_handler {A : Type} (e : exn)
    (clauses : list (exn_class * (exn -> M A))) : option (exn -> M A) :=
  match clauses with
  | [] => None
  | (c, h) :: rest => if isinstance e c then Some h else find_handler e rest
  end.

(** [try: m  except C1 as e: h1 e  except C2 as e: h2 e ...]: the first
    clause whose class matches handles the exception. *)
Definition try_except {A : Type} (m : M A)
    (clauses : list (exn_class * (exn -> M A))) : M A :=
  fun s =>
    match m s with
    | (Raise e, s', l) =>
        match find_handler e clauses with
        | Some h => let '(r, s'', l') := h e s' in (r, s'', l ++ l')
        | None => (Raise e, s', l)
        end
    | o => o
    end.

(** [try: m  finally: fin]: [fin] runs however [m] ends; the way [m] ended
    stands unless [fin] itself does not end normally. *)
Definition try_finally {A : Type} (m : M A) (fin : M unit) : M A :=
  fun s =>
    let '(r, s', l) := m s in
    match fin s' with
    | (Return _, s'', l') => (r, s'', l ++ l')
    | (Raise e, s'', l') => (Raise e, s'', l ++ l')
    | (Exit c, s'', l') => (Exit c, s'', l ++ l')
    end.

Local Open Scope prog_scope.

(** [socket.socket(socket.AF_INET, k)] *)
Definition socket_socket (k : kind) : M socket :=
  fun s =>
    match (match k with
           | SOCK_STREAM => tcp_socket_fault s
           | SOCK_DGRAM => udp_socket_fault s
           end) with
    | Some e => (Raise e, s, [])
    | None => (Return (sock k), s, [Socket k])
    end.

(** [sock.settimeout(t)]: a negative value is refused. *)
Definition settimeout (sk : socket) (t : Q) : M unit :=
  let '(sock k) := sk in
  if Qle_bool 0 t then emit (Settimeout k t) else raise ValueError.

(** [sock.connect((host, port))] *)
Definition connect (sk : socket) (host : str) (port : Z) : M unit :=
  fun s =>
    match tcp_connect_fault s with
    | Some e => (Raise e, s, [])
    | None => (Return tt, s, [Connect host port])
    end.

(** [sock.sendall(data)] *)
Definition sendall (sk : socket) (data : bytes) : M unit :=
  fun s =>
    let s' := set_tcp_sendall_faults (tl (tcp_sendall_faults s)) s in
    match hd None (tcp_sendall_faults s) with
    | Some e => (Raise e, s', [])
    | None => (Return tt, s', [Sendall data])
    end.

(** [sock.recv(bufsize)]: at most [bufsize] bytes of what has arrived; the
    rest stays buffered. *)
Definition recv (sk : socket) (bufsize : Z) : M bytes :=
  fun s =>
    match tcp_inbox s with
    | [] => (Raise socket_timeout, s, [])
    | RecvRaise e :: rest => (Raise e, set_tcp_inbox rest s, [])
    | RecvData data :: rest =>
        let got := firstn (Z.to_nat bufsize) data in
        let inbox' := match skipn (Z.to_nat bufsize) data with
                      | [] => rest
                      | more => RecvData more :: rest
                      end in
        (Return got, set_tcp_inbox inbox' s, [Recv bufsize got])
    end.

(** [sock.sendto(data, (host, port))] *)
Definition sendto (sk : socket) (data : bytes) (host : str) (port : Z) : M unit :=
  fun s =>
    match udp_sendto_fault s with
    | Some e => (Raise e, s, [])
    | None => (Return tt, s, [Sendto data host port])
    end.

(** [sock.recvfrom(bufsize)]: one datagram, cut to [bufsize] bytes; the
    sender's address, which the program ignores, is left out. *)
Definition recvfrom (sk : socket) (bufsize : Z) : M bytes :=
  fun s =>
    match udp_inbox s with
    | [] => (Raise socket_timeout, s, [])
    | RecvRaise e :: rest => (Raise e, set_udp_inbox rest s, [])
    | RecvData data :: rest =>
        let got := firstn (Z.to_nat bufsize) data in
        (Return got, set_udp_inbox rest s, [Recvfrom bufsize got])
    end.

(** [sock.close()] *)
Definition close (sk : socket) : M unit :=
  let '(sock k) := sk in emit (Close k).

(** [socket.inet_aton('0.0.0.0')] *)
Definition inet_aton_0_0_0_0 : bytes := [x00; x00; x00; x00].

(** [socket.inet_ntoa(addr)] *)
Definition inet_ntoa (addr : bytes) : result str :=
  match addr with
  | [a; b; c; d] =>
      Return (str_lit (str_of_int (byte_val a) ++ "." ++ str_of_int (byte_val b)
                       ++ "." ++ str_of_int (byte_val c) ++ "."
                       ++ str_of_int (byte_val d))%string)
  | _ => Raise (OSError "packed IP wrong length for inet_ntoa")
  end.

(** ** connect_socks5 *)

(** Truth value of an [Optional[str]]: [None] and [''] are false. *)
Definition truthy (v : option str) : bool :=
  match v with
  | Some (_ :: _) => true
  | _ => false
  end.

(** The request built by lines 69-72 of [connect_socks5]. *)
Definition encode_auth_request (username password : str) : result bytes :=
  (user_bytes <- encode_utf8 username ;;
   pass_bytes <- encode_utf8 password ;;
   h <- struct_pack [B; B] [0x01; len user_bytes] ;;
   l <- struct_pack [B] [len pass_bytes] ;;
   Return (h ++ user_bytes ++ l ++ pass_bytes))%pure.

Definition connect_socks5 (sk : socket) (username password : option str)
  : M unit :=
  greeting <- lift (if truthy username && truthy password
                    then struct_pack [B; B; B; B]
                           [SOCKS5.VERSION; 2; SOCKS5.AUTH_NONE;
                            SOCKS5.AUTH_USERPASS]
                    else struct_pack [B; B; B]
                           [SOCKS5.VERSION; 1; SOCKS5.AUTH_NONE]) ;;
  sendall sk greeting ;;
  response <- recv sk 2 ;;
  if negb (len response =? 2)
  then raise (ConnectionError "Invalid handshake response")
  else
    fields <- lift (struct_unpack [B; B] response) ;;
    match fields with
    | [version; method] =>
        if negb (version =? SOCKS5.VERSION)
        then raise (ConnectionError
                      ("Unsupported SOCKS version: " ++ str_of_int version))
        else if method =? 0xFF
        then raise (ConnectionError "No acceptable authentication methods")
        else if method =? SOCKS5.AUTH_USERPASS
        then
          match username, password with
          | Some ((_ :: _) as u), Some ((_ :: _) as p) =>
              auth_req <- lift (encode_auth_request u p) ;;
              sendall sk auth_req ;;
              auth_resp <- recv sk 2 ;;
              if negb (len auth_resp =? 2)
                 || negb (byte_val (nth 1 auth_resp x00) =? 0x00)
              then raise (ConnectionError "Authentication failed")
              else ret tt
          | _, _ => raise (ConnectionError "Server requires authentication")
          end
        else ret tt
    | _ => raise struct_error
    end.

(** ** request_udp_associate *)

Definition request_udp_associate (sk : socket) : M (str * Z) :=
  r1 <- lift (struct_pack [B; B; B]
                [SOCKS5.VERSION; SOCKS5.CMD_UDP_ASSOCIATE; 0x00]) ;;
  r2 <- lift (struct_pack [B] [SOCKS5.ATYP_IPV4]) ;;
  r3 <- lift (struct_pack [H] [0]) ;;
  let request := r1 ++ r2 ++ inet_aton_0_0_0_0 ++ r3 in
  sendall sk request ;;
  header <- recv sk 4 ;;
  if negb (len header =? 4)
  then raise (ConnectionError "Invalid UDP ASSOCIATE response")
  else
    fields <- lift (struct_unpack [B; B; B; B] header) ;;
    match fields with
    | [version; reply; _; atyp] =>
        if negb (version =? SOCKS5.VERSION)
        then raise (ConnectionError
                      ("Invalid SOCKS version: " ++ str_of_int version))
        else if negb (reply =? SOCKS5.REP_SUCCESS)
        then
          let error :=
            dict_get SOCKS5.ERROR_MESSAGES reply
              ("Unknown error (code " ++ str_of_int reply ++ ")")%string in
          raise (ConnectionError ("UDP ASSOCIATE failed: " ++ error))
        else
          relay_host <-
            (if atyp =? SOCKS5.ATYP_IPV4 then
               addr <- recv sk 4 ;;
               lift (inet_ntoa addr)
             else if atyp =? SOCKS5.ATYP_DOMAIN then
               lb <- recv sk 1 ;;
               lf <- lift (struct_unpack [B] lb) ;;
               match lf with
               | [length] =>
                   name <- recv sk length ;;
                   lift (decode_utf8 name)
               | _ => raise struct_error
               end
             else raise (ConnectionError
                           ("Unsupported address type: " ++ str_of_int atyp))) ;;
          pb <- recv sk 2 ;;
          pf <- lift (struct_unpack [H] pb) ;;
          match pf with
          | [relay_port] => ret (relay_host, relay_port)
          | _ => raise struct_error
          end
    | _ => raise struct_error
    end.

(** ** test_udp_relay *)

Definition test_udp_relay (relay_host : str) (relay_port : Z) (timeout : Q)
  : M bool :=
  udp_sock <- socket_socket SOCK_DGRAM ;;
  settimeout udp_sock timeout ;;
  try_finally
    (h1 <- lift (struct_pack [H; B; B] [0x0000; 0x00; SOCKS5.ATYP_DOMAIN]) ;;
     let target := str_lit "8.8.8.8" in
     target_bytes <- lift (encode_utf8 target) ;;
     h2 <- lift (struct_pack [B] [len target_bytes]) ;;
     h3 <- lift (struct_pack [H] [53]) ;;
     let header := h1 ++ (h2 ++ target_bytes) ++ h3 in
     dns_query <- lift (create_dns_query (str_lit "google.com")) ;;
     let packet := header ++ dns_query in
     sendto udp_sock packet relay_host relay_port ;;
     try_except
       (response <- recvfrom udp_sock 4096 ;;
        ret (10 <? len response))
       [(class_socket_timeout, fun _ => ret false)])
    (close udp_sock).

(** The default value of the parameter [timeout] of [test_udp_relay]. *)
Definition default_timeout : Q := 5.

(** ** check_udp_support *)

(** The assignment [tcp_sock = v]. *)
Definition assign_tcp_sock (v : option socket) : M unit :=
  fun s => (Return tt, set_tcp_sock v s, []).

(** The body of the [try] statement of [check_udp_support]. *)
Definition check_body (host : str) (port : Z) (username password : option str)
  : M bool :=
  sk <- socket_socket SOCK_STREAM ;;
  assign_tcp_sock (Some sk) ;;
  settimeout sk 10 ;;
  connect sk host port ;;
  connect_socks5 sk username password ;;
  endpoint <- request_udp_associate sk ;;
  let '(relay_host, relay_port) := endpoint in
  udp_works <- test_udp_relay relay_host relay_port default_timeout ;;
  ret udp_works.

Definition check_udp_support (host : str) (port : Z)
    (username password : option str) (verbose : bool) : M bool :=
  assign_tcp_sock None ;;
  try_finally
    (try_except (check_body host port username password)
       [ (class_ConnectionError, fun _ => ret false);
         (class_socket_timeout, fun _ => ret false);
         (class_Exception, fun _ => ret false) ])
    (fun s => match tcp_sock s with
              | Some sk => close sk s
              | None => ret tt s
              end).

(** ** main, after argument parsing *)

Record args : Type := mkArgs {
  host : str;
  port : Z;
  username : option str;
  password : option str;
  quiet : bool;
  timeout : Q
}.

Definition sys_exit {A : Type} (code : Z) : M A := fun s => (Exit code, s, []).

Definition main (a : args) : M unit :=
  result <- check_udp_support (host a) (port a) (username a) (password a)
              (negb (quiet a)) ;;
  sys_exit (if result then 0 else 1).

(** A network on which nothing fails and nothing arrives. *)
Definition quiet_network : state :=
  mkState None None [] [] None None [] None.

(** * Definitions used to state the properties *)

(** The wire form the specification describes: a 16-bit field in network
    byte order, a label with its length in front, and the whole query. *)
Definition be16 (n : Z) : bytes := [byte_of_Z (n / 256); byte_of_Z (n mod 256)].

Definition dns_header_spec : bytes :=
  be16 0x1234 ++ be16 0x0100 ++ be16 1 ++ be16 0 ++ be16 0 ++ be16 0.

Definition label_spec (name : bytes) : bytes := byte_of_Z (len name) :: name.

Definition dns_query_spec (labels : list bytes) : bytes :=
  dns_header_spec ++ List.concat (map label_spec labels) ++ [x00]
  ++ be16 1 ++ be16 1.


(** What a part must satisfy for its label to come out right. *)
Definition plain_label (part : str) : Prop :=
  len part <= 255 /\ Forall (fun c => (c < 128)%N) part.

(** The next [sendall] succeeds. *)
Definition send_ok (s : state) : Prop := hd None (tcp_sendall_faults s) = None.

(** The value of two bytes in network byte order. *)
Definition port_of (hi lo : byte) : Z := 256 * byte_val hi + byte_val lo.


(** The greeting of the specification: one method (none) without
    credentials, two methods (none, username/password) with them. *)
Definition greeting_spec (has_credentials : bool) : bytes :=
  if has_credentials then [x05; x02; x00; x02] else [x05; x01; x00].

(** Credentials are present when both fields are non-empty. *)
Definition has_credentials (username password : option str) : bool :=
  truthy username && truthy password.

(** The exchange every handshake starts with, for the method [m] the
    server selects. *)
Definition hello (username password : option str) (m : byte) : list event :=
  [Sendall (greeting_spec (has_credentials username password));
   Recv 2 [x05; m]].

(** The encapsulation of the specification: reserved 0x0000, fragment 0,
    address type domain (3), the target as a length-prefixed name, the
    target port in network byte order, the payload. *)
Definition relay_encapsulation_spec (target_host : bytes) (target_port : Z)
    (payload : bytes) : bytes :=
  be16 0 ++ [x00] ++ [x03] ++ [byte_of_Z (len target_host)] ++ target_host
  ++ be16 target_port ++ payload.

(** The packet of the probe: the query for google.com, addressed by name to
    "8.8.8.8", port 53. *)
Definition probe_packet : bytes :=
  relay_encapsulation_spec (map byte_of_N (str_lit "8.8.8.8")) 53
    (dns_query_spec (map (map byte_of_N) [str_lit "google"; str_lit "com"])).

(** A pure result is never [sys.exit]. *)
Definition no_exit {A : Type} (r : result A) : Prop := forall c, r <> Exit c.

Definition is_tcp_io (ev : event) : Prop :=
  match ev with
  | Connect _ _ | Sendall _ | Recv _ _ => True
  | _ => False
  end.

Definition is_udp_io (ev : event) : Prop :=
  match ev with
  | Sendto _ _ _ | Recvfrom _ _ => True
  | _ => False
  end.

(** A computation on the TCP connection: it does not exit, it only
    connects, sends and receives, and it leaves alone the variable
    [tcp_sock] and the fate of the UDP socket. *)
Definition tcp_stage {A : Type} (m : M A) : Prop :=
  forall s,
    no_exit (res (m s))
    /\ Forall is_tcp_io (log (m s))
    /\ tcp_sock (final (m s)) = tcp_sock s
    /\ udp_socket_fault (final (m s)) = udp_socket_fault s.

(** The three stages that talk over the TCP connection. *)
Definition tcp_stages (sk : socket) (host : str) (port : Z)
    (username password : option str) : M (str * Z) :=
  connect sk host port ;;
  connect_socks5 sk username password ;;
  request_udp_associate sk.

(** The statements of [check_body] that come before the probe. *)
Definition reach_probe (host : str) (port : Z) (username password : option str)
  : M (str * Z) :=
  sk <- socket_socket SOCK_STREAM ;;
  assign_tcp_sock (Some sk) ;;
  settimeout sk 10 ;;
  tcp_stages sk host port username password.

(** The probe, as [check_body] calls it. *)
Definition probe_stage (endpoint : str * Z) : M bool :=
  let '(relay_host, relay_port) := endpoint in
  udp_works <- test_udp_relay relay_host relay_port default_timeout ;;
  ret udp_works.

(** What the [finally] clause of [check_udp_support] logs. *)
Definition closing (v : option socket) : list event :=
  match v with
  | Some (sock k) => [Close k]
  | None => []
  end.

(** The UDP part of a check: nothing, or one socket opened, used and
    closed. *)
Definition udp_bracket (l : list event) : Prop :=
  l = []
  \/ exists io,
       l = [Socket SOCK_DGRAM; Settimeout SOCK_DGRAM default_timeout]
           ++ io ++ [Close SOCK_DGRAM]
       /\ Forall is_udp_io io.






(** ['.'.join(parts)] *)
Fixpoint join_dot (parts : list str) : str :=
  match parts with
  | [] => []
  | p :: ps =>
      match ps with
      | [] => p
      | _ :: _ => p ++ 46%N :: join_dot ps
      end
  end.

(** The server's answer to the greeting selects username/password
    authentication: version 5, method 2. *)
Definition credentials_requested (s : state) : Prop :=
  exists extra rest, tcp_inbox s = RecvData (x05 :: x02 :: extra) :: rest.

(** What [connect_socks5] may send: the greeting, or, once the server has
    asked for them, the credentials it was given. *)
Definition handshake_send (s : state) (username password : option str)
    (ev : event) : Prop :=
  match ev with
  | Sendall d =>
      d = greeting_spec (has_credentials username password)
      \/ (credentials_requested s
          /\ exists u p, username = Some u /\ password = Some p
                         /\ has_credentials username password = true
                         /\ encode_auth_request u p = Return d)
  | _ => True
  end.

(** The UDP ASSOCIATE request on the wire: version 5, command 3, reserved
    0, address type 1, address 0.0.0.0, port 0. *)
Definition associate_request : bytes :=
  [x05; x03; x00; x01; x00; x00; x00; x00; x00; x00].

(** Every value [m] returns satisfies [Q]. *)
Definition returns {A : Type} (Q : A -> Prop) (m : M A) : Prop :=
  forall s a, res (m s) = Return a -> Q a.

(** The operations on the UDP socket. *)
Definition on_udp (ev : event) : Prop :=
  match ev with
  | Socket SOCK_DGRAM | Settimeout SOCK_DGRAM _ | Close SOCK_DGRAM => True
  | Sendto _ _ _ | Recvfrom _ _ => True
  | _ => False
  end.

(** * Properties *)

(** ** Bytes and the pure codecs *)

Lemma byte_val_range (b : byte) : 0 <= byte_val b <= 255.
Proof.
  unfold byte_val. pose proof (Byte.to_N_bounded b). lia.
Qed.

Lemma byte_val_of_Z (n : Z) : 0 <= n <= 255 -> byte_val (byte_of_Z n) = n.
Proof.
  intros Hn. unfold byte_val, byte_of_Z.
  rewrite Z.mod_small by lia.
  destruct (Byte.of_N (Z.to_N n)) as [b|] eqn:E.
  - apply Byte.to_of_N in E. rewrite E. lia.
  - apply Byte.of_N_None_iff in E. lia.
Qed.

Lemma byte_of_Z_val (b : byte) : byte_of_Z (byte_val b) = b.
Proof.
  unfold byte_of_Z. rewrite Z.mod_small by (pose proof (byte_val_range b); lia).
  unfold byte_val. rewrite N2Z.id, Byte.of_to_N. reflexivity.
Qed.

Lemma struct_pack_B (v : Z) :
  0 <= v <= 255 -> struct_pack [B] [v] = Return [byte_of_Z v].
Proof.
  intros Hv. cbn.
  replace (0 <=? v) with true by (symmetry; apply Z.leb_le; lia).
  replace (v <=? 255) with true by (symmetry; apply Z.leb_le; lia).
  reflexivity.
Qed.

Lemma struct_pack_B_too_big (v : Z) :
  255 < v -> struct_pack [B] [v] = Raise struct_error.
Proof.
  intros Hv. cbn.
  replace (v <=? 255) with false by (symmetry; apply Z.leb_gt; lia).
  rewrite andb_false_r. reflexivity.
Qed.

Lemma len_nonneg {A : Type} (l : list A) : 0 <= len l.
Proof. unfold len. lia. Qed.

Lemma len_app {A : Type} (l1 l2 : list A) : len (l1 ++ l2) = len l1 + len l2.
Proof. unfold len. rewrite length_app. lia. Qed.

(** A code point below 128 is one byte, itself. *)
Lemma encode_utf8_ascii (s : str) :
  Forall (fun c => (c < 128)%N) s -> encode_utf8 s = Return (map byte_of_N s).
Proof.
  induction 1 as [|c s Hc _ IH]; [reflexivity|].
  cbn [encode_utf8 map]. unfold encode_code_point.
  replace (c <? 128)%N with true by (symmetry; apply N.ltb_lt; exact Hc).
  cbn [rbind]. rewrite IH. reflexivity.
Qed.

(** ** C7: the DNS query *)

Lemma add_label_plain (question : bytes) (part : str) :
  plain_label part ->
  add_label question part
  = Return (question ++ label_spec (map byte_of_N part)).
Proof.
  intros [Hl Ha]. unfold add_label.
  rewrite struct_pack_B by (pose proof (len_nonneg part); lia).
  cbn [rbind]. rewrite (encode_utf8_ascii part Ha). cbn [rbind].
  unfold label_spec, len. rewrite length_map. reflexivity.
Qed.

Lemma for_parts_plain (parts : list str) :
  Forall plain_label parts ->
  forall question,
    for_parts question parts
    = Return (question ++ List.concat (map label_spec (map (map byte_of_N) parts))).
Proof.
  induction 1 as [|part parts Hp _ IH]; intros question.
  - cbn. rewrite app_nil_r. reflexivity.
  - cbn [for_parts]. rewrite (add_label_plain question part Hp).
    cbn [rbind]. rewrite IH. cbn [map List.concat].
    rewrite <- app_assoc. reflexivity.
Qed.

Lemma dns_header_packed :
  struct_pack [H; H; H; H; H; H] [0x1234; 0x0100; 1; 0; 0; 0]
  = Return dns_header_spec.
Proof. reflexivity. Qed.

Lemma dns_tail_packed : struct_pack [H; H] [1; 1] = Return (be16 1 ++ be16 1).
Proof. reflexivity. Qed.





(** ** C3: the username/password request *)

Lemma struct_pack_cons_B (v : Z) (fmt : list code) (vals : list Z) :
  0 <= v <= 255 ->
  struct_pack (B :: fmt) (v :: vals)
  = rbind (struct_pack fmt vals) (fun bs => Return (byte_of_Z v :: bs)).
Proof.
  intros Hv. cbn [struct_pack pack_field].
  replace (0 <=? v) with true by (symmetry; apply Z.leb_le; lia).
  replace (v <=? 255) with true by (symmetry; apply Z.leb_le; lia).
  reflexivity.
Qed.

Lemma struct_pack_cons_B_too_big (v : Z) (fmt : list code) (vals : list Z) :
  255 < v -> struct_pack (B :: fmt) (v :: vals) = Raise struct_error.
Proof.
  intros Hv. cbn [struct_pack pack_field].
  replace (v <=? 255) with false by (symmetry; apply Z.leb_gt; lia).
  rewrite andb_false_r. reflexivity.
Qed.

(** C3: when both credentials have a UTF-8 encoding, a credential of more
    than 255 bytes makes the construction of the authentication request
    fail ([struct.error] is the program's "credential too long"); otherwise
    the request is 0x01, the length of the user name as one byte, the user
    name, the length of the password as one byte, the password. *)
Theorem C3_encode_auth_request (username password : str) (ub pb : bytes) :
  encode_utf8 username = Return ub ->
  encode_utf8 password = Return pb ->
  (255 < len ub \/ 255 < len pb ->
   encode_auth_request username password = Raise struct_error)
  /\ (len ub <= 255 -> len pb <= 255 ->
      encode_auth_request username password
      = Return ([x01; byte_of_Z (len ub)] ++ ub ++ [byte_of_Z (len pb)] ++ pb)
      /\ byte_val (byte_of_Z (len ub)) = len ub
      /\ byte_val (byte_of_Z (len pb)) = len pb).
Proof.
  intros Hu Hp. unfold encode_auth_request. rewrite Hu, Hp. cbn [rbind].
  pose proof (len_nonneg ub) as Hub. pose proof (len_nonneg pb) as Hpb.
  rewrite (struct_pack_cons_B 1) by lia.
  split.
  - intros Hlong.
    destruct (Z_le_gt_dec (len ub) 255) as [Hle|Hgt].
    + destruct Hlong as [Hlong|Hlong]; [lia|].
      rewrite struct_pack_B by lia. cbn [rbind].
      rewrite struct_pack_B_too_big by lia. reflexivity.
    + rewrite struct_pack_B_too_big by lia. reflexivity.
  - intros Hlu Hlp.
    rewrite !struct_pack_B by lia. cbn [rbind].
    rewrite !byte_val_of_Z by lia. repeat split; reflexivity.
Qed.

Lemma C3_encode_auth_request_witness :
  encode_auth_request (str_lit "user") (str_lit "secret")
  = Return [x01; x04; x75; x73; x65; x72; x06; x73; x65; x63; x72; x65; x74]
  /\ encode_auth_request (repeat 97%N 256) (str_lit "secret")
     = Raise struct_error.
Proof.
  split.
  - apply (C3_encode_auth_request (str_lit "user") (str_lit "secret")
             [x75; x73; x65; x72] [x73; x65; x63; x72; x65; x74]
             eq_refl eq_refl); vm_compute; congruence.
  - apply (C3_encode_auth_request (repeat 97%N 256) (str_lit "secret")
             (repeat x61 256) [x73; x65; x63; x72; x65; x74]).
    + vm_compute. reflexivity.
    + reflexivity.
    + left. vm_compute. reflexivity.
Defined.

(** ** Running the monadic code on a described network *)

Arguments byte_val : simpl never.
Arguments str_of_int : simpl never.
Arguments String.append : simpl never.
Arguments dict_get : simpl never.
Arguments decode_utf8 : simpl never.
Arguments encode_auth_request : simpl never.
Arguments Z.shiftl : simpl never.

Ltac unfold_prog :=
  cbv beta iota zeta delta
    [bind lift ret raise emit try_except try_finally find_handler isinstance
     sendall recv recvfrom sendto socket_socket settimeout connect close
     sys_exit res log final fst snd
     tcp_socket_fault tcp_connect_fault tcp_sendall_faults tcp_inbox
     udp_socket_fault udp_sendto_fault udp_inbox tcp_sock
     set_tcp_sendall_faults set_tcp_inbox set_udp_inbox set_tcp_sock].

Ltac exec := repeat (progress (unfold_prog; simpl)).

(** ** C4: the reply code of UDP ASSOCIATE *)

Lemma dict_get_In {V : Type} (d : list (Z * V)) (key : Z) (v default : V) :
  NoDup (map fst d) -> In (key, v) d -> dict_get d key default = v.
Proof.
  induction d as [|[k w] d IH]; intros Hnd Hin; [destruct Hin|].
  inversion Hnd as [|? ? Hk Hnd']; subst.
  unfold dict_get; fold (@dict_get V).
  destruct Hin as [Heq|Hin].
  - injection Heq as -> ->. rewrite Z.eqb_refl. reflexivity.
  - destruct (Z.eqb_spec k key) as [->|_].
    + exfalso. apply Hk. change key with (fst (key, v)). now apply in_map.
    + now apply IH.
Qed.

Lemma dict_get_default {V : Type} (d : list (Z * V)) (key : Z) (default : V) :
  ~ In key (map fst d) -> dict_get d key default = default.
Proof.
  induction d as [|[k w] d IH]; intros Hni; [reflexivity|].
  unfold dict_get; fold (@dict_get V).
  destruct (Z.eqb_spec k key) as [->|_].
  - exfalso. apply Hni. now left.
  - apply IH. intros Hin. apply Hni. now right.
Qed.

Lemma ERROR_MESSAGES_keys :
  map fst SOCKS5.ERROR_MESSAGES = [1; 2; 3; 4; 5; 6; 7; 8; 9].
Proof. reflexivity. Qed.

(** A non-zero reply code ends [request_udp_associate] with the message
    looked up in the table. *)
Lemma associate_refused (sk : socket) (s : state) (r rsv atyp : byte)
    (extra : bytes) (rest : list recv_event) :
  send_ok s ->
  tcp_inbox s = RecvData ([x05; r; rsv; atyp] ++ extra) :: rest ->
  byte_val r <> 0 ->
  res (request_udp_associate sk s)
  = Raise (ConnectionError
             ("UDP ASSOCIATE failed: "
              ++ dict_get SOCKS5.ERROR_MESSAGES (byte_val r)
                   ("Unknown error (code " ++ str_of_int (byte_val r) ++ ")")%string)).
Proof.
  destruct s as [a b fs inbox c d ui ts]. unfold send_ok. simpl.
  intros Hs -> Hr. unfold request_udp_associate.
  apply Z.eqb_neq in Hr.
  exec. rewrite Hs. exec.
  unfold SOCKS5.REP_SUCCESS. rewrite Hr. reflexivity.
Qed.

Lemma associate_success_reply (sk : socket) (s : state) (r rsv atyp : byte)
    (extra : bytes) (rest : list recv_event) (endpoint : str * Z) :
  send_ok s ->
  tcp_inbox s = RecvData ([x05; r; rsv; atyp] ++ extra) :: rest ->
  res (request_udp_associate sk s) = Return endpoint ->
  r = x00.
Proof.
  intros Hs Hi Hres.
  destruct (Z.eq_dec (byte_val r) 0) as [Hz|Hnz].
  - rewrite <- (byte_of_Z_val r), Hz. reflexivity.
  - rewrite (associate_refused sk s r rsv atyp extra rest Hs Hi Hnz) in Hres.
    discriminate Hres.
Qed.

(** C4: with a version-5 header, a reply code found in [ERROR_MESSAGES]
    (the codes 1 to 9) fails with exactly the message of the table, any
    other non-zero code fails with "Unknown error (code N)", and only the
    reply code 0 lets the request succeed. *)
Theorem C4_reply_codes (sk : socket) (s : state) (r rsv atyp : byte)
    (extra : bytes) (rest : list recv_event) :
  send_ok s ->
  tcp_inbox s = RecvData ([x05; r; rsv; atyp] ++ extra) :: rest ->
  let out := res (request_udp_associate sk s) in
  (1 <= byte_val r <= 9 ->
   exists msg, In (byte_val r, msg) SOCKS5.ERROR_MESSAGES
               /\ out = Raise (ConnectionError ("UDP ASSOCIATE failed: " ++ msg)))
  /\ (9 < byte_val r ->
      out = Raise (ConnectionError
                     ("UDP ASSOCIATE failed: Unknown error (code "
                      ++ str_of_int (byte_val r) ++ ")")))
  /\ (forall endpoint, out = Return endpoint -> r = x00).
Proof.
  intros Hs Hi out. subst out. repeat split.
  - intros Hr.
    assert (Hin : In (byte_val r) (map fst SOCKS5.ERROR_MESSAGES)).
    { rewrite ERROR_MESSAGES_keys. cbn [In]. lia. }
    apply in_map_iff in Hin. destruct Hin as [[k msg] [Hk Hin]].
    cbn [fst] in Hk. subst k. exists msg. split; [exact Hin|].
    rewrite (associate_refused sk s r rsv atyp extra rest Hs Hi) by lia.
    rewrite (dict_get_In _ _ msg); [reflexivity| |exact Hin].
    rewrite ERROR_MESSAGES_keys. repeat constructor; cbn [In]; lia.
  - intros Hr.
    rewrite (associate_refused sk s r rsv atyp extra rest Hs Hi) by lia.
    rewrite dict_get_default; [reflexivity|].
    rewrite ERROR_MESSAGES_keys. cbn [In]. lia.
  - intros endpoint Hres.
    exact (associate_success_reply sk s r rsv atyp extra rest endpoint Hs Hi Hres).
Qed.

Lemma C4_reply_codes_witness :
  exists msg,
    In (2, msg) SOCKS5.ERROR_MESSAGES
    /\ res (request_udp_associate (sock SOCK_STREAM)
              (set_tcp_inbox [RecvData [x05; x02; x00; x01]] quiet_network))
       = Raise (ConnectionError ("UDP ASSOCIATE failed: " ++ msg)).
Proof.
  destruct (C4_reply_codes (sock SOCK_STREAM)
              (set_tcp_inbox [RecvData [x05; x02; x00; x01]] quiet_network)
              x02 x00 x01 [] [] eq_refl eq_refl) as [Hknown _].
  apply Hknown. vm_compute. split; discriminate.
Defined.

(** The scenario of the specification: reply code 2. *)
Example associate_not_allowed :
  res (request_udp_associate (sock SOCK_STREAM)
         (set_tcp_inbox [RecvData [x05; x02; x00; x01]] quiet_network))
  = Raise (ConnectionError
             "UDP ASSOCIATE failed: Connection not allowed by ruleset").
Proof. reflexivity. Qed.

(** ** C5: the relay address *)

Lemma byte_val_inj (b1 b2 : byte) : byte_val b1 = byte_val b2 -> b1 = b2.
Proof.
  intros H. rewrite <- (byte_of_Z_val b1), <- (byte_of_Z_val b2), H.
  reflexivity.
Qed.

Lemma byte_val_neqb (b1 b2 : byte) :
  b1 <> b2 -> (byte_val b1 =? byte_val b2) = false.
Proof.
  intros Hne. apply Z.eqb_neq. intros H. apply Hne, byte_val_inj, H.
Qed.

Lemma shiftl_8 (z : Z) : Z.shiftl z 8 = 256 * z.
Proof. rewrite Z.shiftl_mul_pow2 by lia. change (2 ^ 8) with 256. lia. Qed.






(** A short read is not retried: an address cut in two by the transport
    makes [inet_ntoa] fail. *)
Example associate_short_address :
  res (request_udp_associate (sock SOCK_STREAM)
         (set_tcp_inbox
            [RecvData [x05; x00; x00; x01]; RecvData [x01; x02];
             RecvData [x03; x04; x13; x88]]
            quiet_network))
  = Raise (OSError "packed IP wrong length for inet_ntoa").
Proof. reflexivity. Qed.

(** ** C6: the handshake *)

Lemma handshake_rejected (sk : socket) (s : state)
    (username password : option str) (rest : list recv_event) :
  send_ok s ->
  tcp_inbox s = RecvData [x05; xff] :: rest ->
  let out := connect_socks5 sk username password s in
  res out = Raise (ConnectionError "No acceptable authentication methods")
  /\ log out = hello username password xff.
Proof.
  destruct s as [f1 f2 fs inbox f3 f4 ui ts]. unfold send_ok. simpl.
  intros Hs ->. unfold connect_socks5, hello, has_credentials.
  destruct (truthy username && truthy password);
    exec; rewrite Hs; exec; split; reflexivity.
Qed.

Lemma handshake_no_credentials (sk : socket) (s : state)
    (username password : option str) (rest : list recv_event) :
  send_ok s ->
  tcp_inbox s = RecvData [x05; x02] :: rest ->
  has_credentials username password = false ->
  let out := connect_socks5 sk username password s in
  res out = Raise (ConnectionError "Server requires authentication")
  /\ log out = hello username password x02.
Proof.
  destruct s as [f1 f2 fs inbox f3 f4 ui ts]. unfold send_ok. simpl.
  intros Hs -> Hc. unfold connect_socks5, hello.
  fold (has_credentials username password). rewrite Hc.
  exec. rewrite Hs. exec.
  destruct username as [[|c u]|]; destruct password as [[|c' p]|];
    try discriminate Hc; split; reflexivity.
Qed.

Lemma handshake_other (sk : socket) (s : state)
    (username password : option str) (m : byte) (rest : list recv_event) :
  send_ok s ->
  tcp_inbox s = RecvData [x05; m] :: rest ->
  m <> xff -> m <> x02 ->
  let out := connect_socks5 sk username password s in
  res out = Return tt /\ log out = hello username password m.
Proof.
  destruct s as [f1 f2 fs inbox f3 f4 ui ts]. unfold send_ok. simpl.
  intros Hs -> Hf H2. unfold connect_socks5, hello, has_credentials.
  apply byte_val_neqb in Hf, H2.
  change (byte_val xff) with 255 in Hf. change (byte_val x02) with 2 in H2.
  destruct (truthy username && truthy password);
    exec; rewrite Hs; exec; unfold SOCKS5.AUTH_USERPASS; rewrite Hf, H2;
    split; reflexivity.
Qed.

Lemma handshake_auth (sk : socket) (s : state) (u p : str) (req resp : bytes)
    (rest : list recv_event) :
  send_ok s ->
  hd None (tl (tcp_sendall_faults s)) = None ->
  tcp_inbox s = RecvData [x05; x02] :: RecvData resp :: rest ->
  has_credentials (Some u) (Some p) = true ->
  encode_auth_request u p = Return req ->
  let out := connect_socks5 sk (Some u) (Some p) s in
  log out = hello (Some u) (Some p) x02 ++ [Sendall req; Recv 2 (firstn 2 resp)]
  /\ (res out = Return tt <-> len (firstn 2 resp) = 2 /\ nth 1 resp x00 = x00)
  /\ (res out = Return tt
      \/ res out = Raise (ConnectionError "Authentication failed")).
Proof.
  destruct s as [f1 f2 fs inbox f3 f4 ui ts]. unfold send_ok. simpl.
  intros Hs Hs2 -> Hc Hreq. unfold connect_socks5, hello.
  fold (has_credentials (Some u) (Some p)). rewrite Hc.
  destruct u as [|c u]; [discriminate Hc|].
  destruct p as [|c' p]; [discriminate Hc|].
  exec. rewrite Hs. exec. rewrite Hreq. exec. rewrite Hs2. exec.
  destruct resp as [|r0 [|r1 resp]].
  - exec. repeat split; try (now right).
    + discriminate.
    + intros [Hlen _]. discriminate Hlen.
  - exec. repeat split; try (now right).
    + discriminate.
    + intros [Hlen _]. discriminate Hlen.
  - exec. destruct (Z.eqb_spec (byte_val r1) 0) as [Hz|Hnz]; exec.
    + repeat split; try (now left).
      apply byte_val_inj. exact Hz.
    + repeat split; try (now right).
      * discriminate.
      * intros [_ ->]. exfalso. apply Hnz. reflexivity.
Qed.

(** C6: once the server has answered the greeting with version 5 and a
    method [m]: 0xFF fails with "No acceptable authentication methods";
    method 2 without credentials fails with "Server requires
    authentication"; method 2 with credentials sends the authentication
    request and succeeds exactly when the answer read has two bytes, the
    second of them 0, and fails with "Authentication failed" otherwise;
    any other method is accepted with nothing further sent or read.  The
    authentication request is sent only in the third case. *)
Theorem C6_handshake (sk : socket) (s : state)
    (username password : option str) (m : byte) (rest : list recv_event) :
  send_ok s ->
  tcp_inbox s = RecvData [x05; m] :: rest ->
  let out := connect_socks5 sk username password s in
  (m = xff ->
   res out = Raise (ConnectionError "No acceptable authentication methods")
   /\ log out = hello username password m)
  /\ (m = x02 -> has_credentials username password = false ->
      res out = Raise (ConnectionError "Server requires authentication")
      /\ log out = hello username password m)
  /\ (m = x02 -> has_credentials username password = true ->
      forall u p req resp rest',
        username = Some u -> password = Some p ->
        encode_auth_request u p = Return req ->
        hd None (tl (tcp_sendall_faults s)) = None ->
        rest = RecvData resp :: rest' ->
        log out = hello username password m
                  ++ [Sendall req; Recv 2 (firstn 2 resp)]
        /\ (res out = Return tt
            <-> len (firstn 2 resp) = 2 /\ nth 1 resp x00 = x00)
        /\ (res out = Return tt
            \/ res out = Raise (ConnectionError "Authentication failed")))
  /\ (m <> xff -> m <> x02 ->
      res out = Return tt /\ log out = hello username password m).
Proof.
  intros Hs Hi out. subst out. split; [|split; [|split]].
  - intros ->. exact (handshake_rejected sk s username password rest Hs Hi).
  - intros -> Hc.
    exact (handshake_no_credentials sk s username password rest Hs Hi Hc).
  - intros -> Hc u p req resp rest' -> -> Hreq Hs2 ->.
    exact (handshake_auth sk s u p req resp rest' Hs Hs2 Hi Hc Hreq).
  - intros Hf H2.
    exact (handshake_other sk s username password m rest Hs Hi Hf H2).
Qed.

Lemma C6_handshake_witness :
  let out := connect_socks5 (sock SOCK_STREAM)
               (Some (str_lit "user")) (Some (str_lit "secret"))
               (set_tcp_inbox [RecvData [x05; x02]; RecvData [x01; x00]]
                  quiet_network) in
  res out = Return tt
  /\ log out
     = [Sendall [x05; x02; x00; x02]; Recv 2 [x05; x02];
        Sendall [x01; x04; x75; x73; x65; x72;
                 x06; x73; x65; x63; x72; x65; x74];
        Recv 2 [x01; x00]].
Proof.
  destruct (C6_handshake (sock SOCK_STREAM)
              (set_tcp_inbox [RecvData [x05; x02]; RecvData [x01; x00]]
                 quiet_network)
              (Some (str_lit "user")) (Some (str_lit "secret")) x02
              [RecvData [x01; x00]] eq_refl eq_refl) as [_ [_ [Hauth _]]].
  destruct (Hauth eq_refl eq_refl (str_lit "user") (str_lit "secret")
              [x01; x04; x75; x73; x65; x72; x06; x73; x65; x63; x72; x65; x74]
              [x01; x00] [] eq_refl eq_refl eq_refl eq_refl eq_refl)
    as [Hlog [Hres _]].
  split.
  - apply Hres. split; reflexivity.
  - exact Hlog.
Defined.

(** ** C1 and C8: the relay probe *)

Arguments firstn : simpl nomatch.
Arguments skipn : simpl nomatch.

(** Every run of [test_udp_relay], by what the network does. *)
Lemma probe_runs (h : str) (p : Z) (t : Q) (s : state) :
  let out := test_udp_relay h p t s in
  match udp_socket_fault s with
  | Some e => res out = Raise e /\ log out = []
  | None =>
      if Qle_bool 0 t then
        match udp_sendto_fault s with
        | Some e =>
            res out = Raise e
            /\ log out = [Socket SOCK_DGRAM; Settimeout SOCK_DGRAM t;
                          Close SOCK_DGRAM]
        | None =>
            exists io,
              log out = [Socket SOCK_DGRAM; Settimeout SOCK_DGRAM t;
                         Sendto probe_packet h p] ++ io ++ [Close SOCK_DGRAM]
              /\ match udp_inbox s with
                 | [] => res out = Return false /\ io = []
                 | RecvRaise e :: _ =>
                     res out = (if isinstance e class_socket_timeout
                                then Return false else Raise e)
                     /\ io = []
                 | RecvData data :: _ =>
                     let response := firstn (Z.to_nat 4096) data in
                     res out = Return (10 <? len response)
                     /\ io = [Recvfrom 4096 response]
                 end
        end
      else res out = Raise ValueError /\ log out = [Socket SOCK_DGRAM]
  end.
Proof.
  destruct s as [f1 f2 fs inbox f3 f4 ui ts]. simpl.
  unfold test_udp_relay.
  destruct f3 as [e|]; [exec; split; reflexivity|].
  destruct (Qle_bool 0 t) eqn:Ht.
  2: { exec. rewrite Ht. exec. split; reflexivity. }
  destruct f4 as [e|].
  { exec. rewrite Ht. exec. split; reflexivity. }
  destruct ui as [|[data|e] rest].
  - exists []. exec. rewrite Ht. exec.
    split; [reflexivity|split; reflexivity].
  - exists [Recvfrom 4096 (firstn (Z.to_nat 4096) data)].
    exec. rewrite Ht. exec. split; [reflexivity|split; reflexivity].
  - exists []. exec. rewrite Ht. exec.
    destruct e; exec; split; try reflexivity; split; reflexivity.
Qed.

Ltac in_log H :=
  repeat (destruct H as [H|H]; [try discriminate H|]); try contradiction H.





(** [settimeout] is called before the [try] statement: called directly
    with a negative timeout, [test_udp_relay] raises [ValueError] with its
    socket still open.  [check_udp_support] always passes the default. *)
Example probe_negative_timeout :
  res (test_udp_relay (str_lit "1.2.3.4") 5000 (-1) quiet_network)
  = Raise ValueError
  /\ log (test_udp_relay (str_lit "1.2.3.4") 5000 (-1) quiet_network)
     = [Socket SOCK_DGRAM].
Proof. split; reflexivity. Qed.

(** ** What the stages of a check can do *)

Lemma no_exit_rbind {A B : Type} (r : result A) (f : A -> result B) :
  no_exit r -> (forall a, no_exit (f a)) -> no_exit (rbind r f).
Proof.
  intros Hr Hf. destruct r as [a|e|c]; cbn [rbind].
  - apply Hf.
  - intros c. discriminate.
  - exfalso. exact (Hr c eq_refl).
Qed.

Lemma no_exit_Return {A : Type} (a : A) : no_exit (Return a).
Proof. intros c. discriminate. Qed.

Lemma no_exit_Raise {A : Type} (e : exn) : no_exit (@Raise A e).
Proof. intros c. discriminate. Qed.

Create HintDb pure discriminated.
#[local] Hint Resolve no_exit_Return no_exit_Raise : pure.

Lemma no_exit_pack_field (c : code) (v : Z) : no_exit (pack_field c v).
Proof.
  destruct c; unfold pack_field;
    match goal with |- no_exit (if ?b then _ else _) => destruct b end;
    auto with pure.
Qed.

Lemma no_exit_struct_pack (fmt : list code) (vals : list Z) :
  no_exit (struct_pack fmt vals).
Proof.
  revert vals. induction fmt as [|c fmt IH]; intros [|v vals];
    cbn [struct_pack]; auto with pure.
  apply no_exit_rbind; [apply no_exit_pack_field|].
  intros b. apply no_exit_rbind; [apply IH|]. auto with pure.
Qed.

Lemma no_exit_struct_unpack (fmt : list code) (data : bytes) :
  no_exit (struct_unpack fmt data).
Proof.
  unfold struct_unpack.
  destruct (Nat.eqb (List.length data) (calcsize fmt)); auto with pure.
Qed.

Lemma no_exit_encode_utf8 (s : str) : no_exit (encode_utf8 s).
Proof.
  induction s as [|c s IH]; cbn [encode_utf8]; auto with pure.
  apply no_exit_rbind.
  - unfold encode_code_point.
    repeat match goal with
           | |- no_exit (if ?b then _ else _) => destruct b
           end; auto with pure.
  - intros b. apply no_exit_rbind; [exact IH|]. auto with pure.
Qed.

Lemma no_exit_encode_auth_request (u p : str) :
  no_exit (encode_auth_request u p).
Proof.
  unfold encode_auth_request.
  repeat (apply no_exit_rbind;
          [first [apply no_exit_encode_utf8 | apply no_exit_struct_pack]
          |intros ?]).
  auto with pure.
Qed.

Lemma no_exit_inet_ntoa (addr : bytes) : no_exit (inet_ntoa addr).
Proof.
  destruct addr as [|a [|b [|c [|d [|e addr]]]]]; cbn [inet_ntoa];
    auto with pure.
Qed.

Lemma no_exit_decode_utf8 (data : bytes) : no_exit (decode_utf8 data).
Proof.
  assert (H : forall n (d : bytes), (List.length d <= n)%nat ->
                                    no_exit (decode_utf8 d)).
  { induction n as [|n IH]; intros d Hn.
    - destruct d; [intros c; vm_compute; discriminate|cbn in Hn; lia].
    - destruct d as [|b0 t0]; [intros c; vm_compute; discriminate|].
      cbn [List.length] in Hn.
      unfold decode_utf8; fold decode_utf8.
      repeat match goal with
             | |- no_exit (if ?b then _ else _) => destruct b
             | |- no_exit (match ?l with [] => _ | _ :: _ => _ end) =>
                 destruct l
             | |- no_exit (Raise _) => apply no_exit_Raise
             | |- no_exit (rbind (decode_utf8 _) _) =>
                 apply no_exit_rbind;
                 [apply IH; cbn [List.length] in Hn |- *; lia|auto with pure]
             end. }
  exact (H (List.length data) data (Nat.le_refl _)).
Qed.

#[local] Hint Resolve no_exit_struct_pack no_exit_struct_unpack
  no_exit_encode_utf8 no_exit_encode_auth_request no_exit_inet_ntoa
  no_exit_decode_utf8 : pure.

Section TcpStage.
Context {A B : Type}.

Lemma tcp_stage_ret (a : A) : tcp_stage (ret a).
Proof. intros s. repeat split; [apply no_exit_Return|constructor]. Qed.

Lemma tcp_stage_raise (e : exn) : tcp_stage (@raise A e).
Proof. intros s. repeat split; [apply no_exit_Raise|constructor]. Qed.

Lemma tcp_stage_lift (r : result A) : no_exit r -> tcp_stage (lift r).
Proof. intros Hr s. repeat split; [exact Hr|constructor]. Qed.

Lemma tcp_stage_bind (m : M A) (f : A -> M B) :
  tcp_stage m -> (forall a, tcp_stage (f a)) -> tcp_stage (bind m f).
Proof.
  intros Hm Hf s. unfold bind.
  destruct (Hm s) as (Hx & Hl & Ht & Hu).
  destruct (m s) as [[r s1] l1]. cbn [res log final fst snd] in *.
  destruct r as [a|e|c].
  - destruct (Hf a s1) as (Hx' & Hl' & Ht' & Hu').
    destruct (f a s1) as [[r2 s2] l2]. cbn [res log final fst snd] in *.
    repeat split; try congruence.
    apply Forall_app. split; assumption.
  - cbn [res log final fst snd].
    repeat split; try assumption. apply no_exit_Raise.
  - exfalso. exact (Hx c eq_refl).
Qed.
End TcpStage.

Lemma tcp_stage_sendall (sk : socket) (data : bytes) :
  tcp_stage (sendall sk data).
Proof.
  intros s. unfold sendall.
  destruct (hd None (tcp_sendall_faults s)); cbn;
    repeat split; try discriminate; repeat constructor.
Qed.

Lemma tcp_stage_recv (sk : socket) (bufsize : Z) : tcp_stage (recv sk bufsize).
Proof.
  intros s. unfold recv.
  destruct (tcp_inbox s) as [|[data|e] rest]; cbn [res log final fst snd];
    repeat split; try discriminate; repeat constructor.
Qed.

Lemma tcp_stage_connect (sk : socket) (host : str) (port : Z) :
  tcp_stage (connect sk host port).
Proof.
  intros s. unfold connect.
  destruct (tcp_connect_fault s); cbn;
    repeat split; try discriminate; repeat constructor.
Qed.

Ltac pure_tac :=
  repeat match goal with
         | |- no_exit (if ?b then _ else _) => destruct b
         end;
  auto with pure.

Ltac stage_tac :=
  repeat first
    [ apply tcp_stage_bind; [|intros ?]
    | apply tcp_stage_ret
    | apply tcp_stage_raise
    | apply tcp_stage_sendall
    | apply tcp_stage_recv
    | apply tcp_stage_connect
    | apply tcp_stage_lift; pure_tac
    | match goal with
      | |- tcp_stage (if ?c then _ else _) => destruct c
      | |- tcp_stage (match ?x with _ => _ end) => destruct x
      end ].

Lemma tcp_stage_connect_socks5 (sk : socket) (username password : option str) :
  tcp_stage (connect_socks5 sk username password).
Proof. unfold connect_socks5. stage_tac. Qed.

Lemma tcp_stage_request_udp_associate (sk : socket) :
  tcp_stage (request_udp_associate sk).
Proof. unfold request_udp_associate. stage_tac. Qed.

(** ** The shape of a whole check *)

Lemma bind_assoc {A B C : Type} (m : M A) (f : A -> M B) (g : B -> M C)
    (s : state) :
  bind (bind m f) g s = bind m (fun a => bind (f a) g) s.
Proof.
  unfold bind. destruct (m s) as [[[a|e|c] s1] l1]; try reflexivity.
  destruct (f a s1) as [[[b|e|c] s2] l2]; try reflexivity.
  destruct (g b s2) as [[r s3] l3]. rewrite app_assoc. reflexivity.
Qed.

Lemma bind_ext {A B : Type} (m : M A) (f g : A -> M B) (s : state) :
  (forall a s', f a s' = g a s') -> bind m f s = bind m g s.
Proof.
  intros H. unfold bind. destruct (m s) as [[[a|e|c] s1] l1]; try reflexivity.
  rewrite H. reflexivity.
Qed.

Lemma check_body_split (host : str) (port : Z) (username password : option str)
    (s : state) :
  check_body host port username password s
  = bind (reach_probe host port username password) probe_stage s.
Proof.
  symmetry. unfold reach_probe, tcp_stages, check_body.
  rewrite bind_assoc. apply bind_ext. intros sk s1.
  rewrite bind_assoc. apply bind_ext. intros [] s2.
  rewrite bind_assoc. apply bind_ext. intros [] s3.
  rewrite bind_assoc. apply bind_ext. intros [] s4.
  rewrite bind_assoc. apply bind_ext. intros [] s5.
  reflexivity.
Qed.

Lemma tcp_stage_tcp_stages (sk : socket) (host : str) (port : Z)
    (username password : option str) :
  tcp_stage (tcp_stages sk host port username password).
Proof.
  unfold tcp_stages.
  apply tcp_stage_bind; [apply tcp_stage_connect|intros _].
  apply tcp_stage_bind; [apply tcp_stage_connect_socks5|intros _].
  apply tcp_stage_request_udp_associate.
Qed.

(** Every run of the statements before the probe. *)
Lemma reach_probe_runs (host : str) (port : Z) (username password : option str)
    (s : state) :
  let out := reach_probe host port username password s in
  no_exit (res out)
  /\ udp_socket_fault (final out) = udp_socket_fault s
  /\ match tcp_socket_fault s with
     | Some e => res out = Raise e /\ log out = []
                 /\ tcp_sock (final out) = tcp_sock s
     | None =>
         tcp_sock (final out) = Some (sock SOCK_STREAM)
         /\ exists io,
              log out = [Socket SOCK_STREAM; Settimeout SOCK_STREAM 10] ++ io
              /\ Forall is_tcp_io io
     end.
Proof.
  assert (Heq :
    reach_probe host port username password s
    = match tcp_socket_fault s with
      | Some e => (Raise e, s, [])
      | None =>
          let '(r, s1, l1) :=
            tcp_stages (sock SOCK_STREAM) host port username password
              (set_tcp_sock (Some (sock SOCK_STREAM)) s) in
          (r, s1, [Socket SOCK_STREAM; Settimeout SOCK_STREAM 10] ++ l1)
      end).
  { unfold reach_probe, bind, socket_socket, assign_tcp_sock, settimeout, emit.
    destruct (tcp_socket_fault s) as [e|]; [reflexivity|].
    cbn [Qle_bool Qnum Qden Z.mul Z.leb Z.compare].
    destruct (tcp_stages (sock SOCK_STREAM) host port username password
                (set_tcp_sock (Some (sock SOCK_STREAM)) s))
      as [[[a|e|c] s1] l1]; reflexivity. }
  intros out. subst out. rewrite Heq. clear Heq.
  destruct (tcp_socket_fault s) as [e|].
  - cbn [res log final fst snd]. repeat split. apply no_exit_Raise.
  - pose proof (tcp_stage_tcp_stages (sock SOCK_STREAM) host port
                  username password (set_tcp_sock (Some (sock SOCK_STREAM)) s))
      as (Hx & Hl & Ht & Hu).
    destruct (tcp_stages (sock SOCK_STREAM) host port username password
                (set_tcp_sock (Some (sock SOCK_STREAM)) s)) as [[r s1] l1].
    cbn [res log final fst snd] in *.
    repeat split; try assumption.
    exists l1. split; [reflexivity|assumption].
Qed.

(** The probe leaves the variable [tcp_sock] alone. *)
Lemma probe_frame (h : str) (p : Z) (t : Q) (s : state) :
  tcp_sock (final (test_udp_relay h p t s)) = tcp_sock s.
Proof.
  destruct s as [f1 f2 fs inbox f3 f4 ui ts].
  unfold test_udp_relay.
  destruct f3 as [e|]; [reflexivity|].
  destruct (Qle_bool 0 t) eqn:Ht; [|exec; rewrite Ht; reflexivity].
  destruct f4 as [e|]; [exec; rewrite Ht; reflexivity|].
  destruct ui as [|[data|e] rest]; exec; rewrite Ht; exec; try reflexivity.
  destruct e; reflexivity.
Qed.

Lemma probe_stage_runs (endpoint : str * Z) (s : state) :
  let out := probe_stage endpoint s in
  no_exit (res out)
  /\ tcp_sock (final out) = tcp_sock s
  /\ udp_bracket (log out)
  /\ (udp_socket_fault s = None -> log out <> []).
Proof.
  destruct endpoint as [h p]. unfold probe_stage, bind.
  pose proof (probe_runs h p default_timeout s) as Hrun.
  pose proof (probe_frame h p default_timeout s) as Hframe.
  cbv zeta in Hrun. change (Qle_bool 0 default_timeout) with true in Hrun.
  destruct (test_udp_relay h p default_timeout s) as [[r s1] l1].
  cbn [res log final fst snd] in *.
  assert (Hshape : udp_bracket l1 /\ (udp_socket_fault s = None -> l1 <> [])
                   /\ no_exit r).
  { destruct (udp_socket_fault s) as [e|].
    - destruct Hrun as [-> ->]. repeat split.
      + left. reflexivity.
      + discriminate.
      + apply no_exit_Raise.
    - destruct (udp_sendto_fault s) as [e|].
      + destruct Hrun as [-> ->]. repeat split.
        * right. exists []. split; [reflexivity|constructor].
        * discriminate.
        * apply no_exit_Raise.
      + destruct Hrun as [io [-> Hio]]. repeat split.
        * right. exists (Sendto probe_packet h p :: io). split; [reflexivity|].
          constructor; [exact I|].
          destruct (udp_inbox s) as [|[data|e] rest]; destruct Hio as [_ ->];
            repeat constructor.
        * discriminate.
        * destruct (udp_inbox s) as [|[data|e] rest]; destruct Hio as [-> _];
            try (intros c; discriminate).
          destruct (isinstance e class_socket_timeout); intros c; discriminate. }
  destruct Hshape as (Hb & Hne & Hx).
  destruct r as [b|e|c]; cbn [ret res log final fst snd];
    rewrite ?app_nil_r; repeat split; try assumption;
    try (intros c'; discriminate).
Qed.

Lemma probe_stage_eq (h : str) (p : Z) (s : state) :
  let out := probe_stage (h, p) s in
  let probe := test_udp_relay h p default_timeout s in
  res out = res probe /\ log out = log probe /\ final out = final probe.
Proof.
  unfold probe_stage, bind, ret.
  destruct (test_udp_relay h p default_timeout s) as [[[b|e|c] s1] l1];
    cbn [res log final fst snd]; rewrite ?app_nil_r; repeat split.
Qed.

(** [check_body] is the statements before the probe, then the probe. *)
Lemma check_body_runs (host : str) (port : Z) (username password : option str)
    (s : state) :
  let before := reach_probe host port username password s in
  let body := check_body host port username password s in
  match res before with
  | Return endpoint =>
      let probe := probe_stage endpoint (final before) in
      res body = res probe /\ log body = log before ++ log probe
      /\ final body = final probe
  | Raise e =>
      res body = Raise e /\ log body = log before /\ final body = final before
  | Exit c => False
  end.
Proof.
  cbv zeta. rewrite check_body_split. unfold bind.
  pose proof (reach_probe_runs host port username password s) as [Hx _].
  cbv zeta in Hx.
  destruct (reach_probe host port username password s) as [[[ep|e|c] s1] l1];
    cbn [res log final fst snd] in *.
  - destruct (probe_stage ep s1) as [[r s2] l2]. repeat split.
  - repeat split.
  - exact (Hx c eq_refl).
Qed.

(** The three [except] clauses turn every exception into [False], and the
    [finally] clause closes the TCP socket if the variable holds one. *)
Lemma check_runs (host : str) (port : Z) (username password : option str)
    (verbose : bool) (s : state) :
  let body := check_body host port username password (set_tcp_sock None s) in
  let out := check_udp_support host port username password verbose s in
  res out = match res body with
            | Return b => Return b
            | Raise _ => Return false
            | Exit c => Exit c
            end
  /\ log out = log body ++ closing (tcp_sock (final body)).
Proof.
  cbv zeta.
  unfold check_udp_support, bind, try_finally, try_except, assign_tcp_sock.
  destruct (check_body host port username password (set_tcp_sock None s))
    as [[[b|e|c] s1] l1]; cbn [res log final fst snd app].
  - destruct (tcp_sock s1) as [[k]|]; cbn; split; reflexivity.
  - destruct e; cbn [find_handler isinstance ret];
      destruct (tcp_sock s1) as [[k]|]; cbn; rewrite ?app_nil_r;
      split; reflexivity.
  - destruct (tcp_sock s1) as [[k]|]; cbn; split; reflexivity.
Qed.

Lemma check_body_no_exit (host : str) (port : Z)
    (username password : option str) (s : state) :
  no_exit (res (check_body host port username password s)).
Proof.
  pose proof (check_body_runs host port username password s) as Hb.
  cbv zeta in Hb.
  destruct (res (reach_probe host port username password s)) as [ep|e|c].
  - destruct Hb as [-> _]. apply probe_stage_runs.
  - destruct Hb as [-> _]. apply no_exit_Raise.
  - destruct Hb.
Qed.

(** ** C2: every failure becomes [False] *)



Lemma check_returns_bool (host : str) (port : Z)
    (username password : option str) (verbose : bool) (s : state) :
  exists b,
    res (check_udp_support host port username password verbose s) = Return b.
Proof.
  pose proof (check_runs host port username password verbose s) as [Hres _].
  cbv zeta in Hres.
  pose proof (check_body_no_exit host port username password
                (set_tcp_sock None s)) as Hx.
  destruct (res (check_body host port username password (set_tcp_sock None s)))
    as [b|e|c].
  - exists b. exact Hres.
  - exists false. exact Hres.
  - exfalso. exact (Hx c eq_refl).
Qed.

(** The process is ended by [main], with status 0 or 1. *)
Lemma main_exits (a : args) (s : state) :
  res (main a s) = Exit 0 \/ res (main a s) = Exit 1.
Proof.
  unfold main, bind, sys_exit.
  pose proof (check_returns_bool (host a) (port a) (username a)
                (password a) (negb (quiet a)) s) as [b Hb].
  destruct (check_udp_support (host a) (port a) (username a) (password a)
              (negb (quiet a)) s) as [[r s1] l1].
  cbn [res fst] in Hb. subst r. destruct b; [left|right]; reflexivity.
Qed.

(** ** C9 and C10: the sockets of a check *)






(** The log of every check: nothing when the TCP socket cannot be created;
    otherwise the socket is created, the TCP stages run, the probe opens
    and closes its UDP socket if it is reached, and the TCP socket is
    closed last. *)
Lemma check_shape (host : str) (port : Z) (username password : option str)
    (verbose : bool) (s : state) :
  let l := log (check_udp_support host port username password verbose s) in
  let before := reach_probe host port username password (set_tcp_sock None s) in
  exists udp,
    udp_bracket udp
    /\ match res before with
       | Return (h, p) =>
           udp = log (test_udp_relay h p default_timeout (final before))
           /\ (udp_socket_fault s = None -> udp <> [])
       | _ => udp = []
       end
    /\ match tcp_socket_fault s with
       | Some _ => l = [] /\ udp = [] /\ log before = []
       | None =>
           l = log before ++ udp ++ [Close SOCK_STREAM]
           /\ exists io,
                log before
                = [Socket SOCK_STREAM; Settimeout SOCK_STREAM 10] ++ io
                /\ Forall is_tcp_io io
       end.
Proof.
  cbv zeta.
  pose proof (check_runs host port username password verbose s) as [_ Hlog].
  pose proof (check_body_runs host port username password (set_tcp_sock None s))
    as Hbody.
  pose proof (reach_probe_runs host port username password (set_tcp_sock None s))
    as (_ & Hu & Hbefore).
  cbv zeta in Hlog, Hbody, Hu, Hbefore. rewrite Hlog. clear Hlog.
  change (tcp_socket_fault (set_tcp_sock None s)) with (tcp_socket_fault s)
    in Hbefore.
  change (udp_socket_fault (set_tcp_sock None s)) with (udp_socket_fault s)
    in Hu.
  change (tcp_sock (set_tcp_sock None s)) with (@None socket) in Hbefore.
  destruct (res (reach_probe host port username password (set_tcp_sock None s)))
    as [[h p]|e|c].
  - destruct Hbody as (_ & Hl & Hf). rewrite Hl, Hf.
    pose proof (probe_stage_runs (h, p)
                  (final (reach_probe host port username password
                            (set_tcp_sock None s)))) as (_ & Hts & Hbr & Hne).
    pose proof (probe_stage_eq h p
                  (final (reach_probe host port username password
                            (set_tcp_sock None s)))) as (_ & Hpl & _).
    cbv zeta in Hts, Hbr, Hne, Hpl. rewrite Hts. rewrite Hpl in *.
    exists (log (test_udp_relay h p default_timeout
                   (final (reach_probe host port username password
                             (set_tcp_sock None s))))).
    split; [exact Hbr|]. split.
    + split; [reflexivity|]. intros Hnone. apply Hne. congruence.
    + destruct (tcp_socket_fault s) as [e|].
      * destruct Hbefore as (Hr & _). discriminate Hr.
      * destruct Hbefore as (-> & io & Hio & Hf'). cbn [closing].
        split; [rewrite <- app_assoc; reflexivity|].
        exists io. split; assumption.
  - destruct Hbody as (_ & Hl & Hf). rewrite Hl, Hf.
    exists []. split; [left; reflexivity|]. split; [reflexivity|].
    destruct (tcp_socket_fault s) as [e'|].
    + destruct Hbefore as (_ & -> & ->). repeat split.
    + destruct Hbefore as (-> & io & Hio & Hf'). cbn [closing app].
      split; [reflexivity|]. exists io. split; assumption.
  - destruct Hbody.
Qed.





(** * Further properties of the code *)

(** ** create_dns_query: size and unambiguity *)

Lemma split_dot_not_nil (s : str) : split_dot s <> [].
Proof.
  destruct s as [|c s]; cbn [split_dot]; [discriminate|].
  destruct (c =? 46)%N; [discriminate|].
  destruct (split_dot s); discriminate.
Qed.

Lemma join_split_dot (s : str) : join_dot (split_dot s) = s.
Proof.
  induction s as [|c s IH]; [reflexivity|].
  cbn [split_dot]. destruct (N.eqb_spec c 46) as [->|_].
  - pose proof (split_dot_not_nil s) as Hne.
    cbn [join_dot]. destruct (split_dot s) as [|p ps]; [contradiction|].
    cbn [app]. f_equal. exact IH.
  - destruct (split_dot s) as [|p ps] eqn:E.
    + exfalso. exact (split_dot_not_nil s E).
    + rewrite <- IH. cbn [join_dot]. destruct ps; reflexivity.
Qed.

Lemma len_cons {A : Type} (a : A) (l : list A) : len (a :: l) = 1 + len l.
Proof. unfold len. cbn [List.length]. lia. Qed.

(** The labels of a domain take one byte more than the domain: each dot
    becomes a length byte, and one length byte comes in front. *)
Lemma len_labels (s : str) :
  len (List.concat (map label_spec (map (map byte_of_N) (split_dot s))))
  = len s + 1.
Proof.
  induction s as [|c s IH]; [reflexivity|].
  cbn [split_dot]. destruct (c =? 46)%N.
  - cbn [map List.concat label_spec app]. rewrite !len_cons, IH. lia.
  - destruct (split_dot s) as [|p ps].
    + cbn in IH. pose proof (len_nonneg s). lia.
    + cbn [map List.concat label_spec app] in *.
      rewrite !len_cons, !len_app in *. lia.
Qed.

(** X15: for a domain whose parts are ASCII and at most 255 characters
    long, the query has 18 bytes more than the domain has characters. *)
Theorem X15_dns_query_length (domain : str) :
  Forall plain_label (split_dot domain) ->
  exists query,
    create_dns_query domain = Return query
    /\ len query = len domain + 18.
Proof.
  intros Hp. unfold create_dns_query.
  rewrite dns_header_packed, dns_tail_packed, (for_parts_plain _ Hp []).
  cbn [rbind app]. eexists. split; [reflexivity|].
  rewrite !len_app, len_labels.
  change (len dns_header_spec) with 12. change (len (be16 1)) with 2.
  change (len [x00]) with 1. lia.
Qed.

Lemma X15_dns_query_length_witness :
  exists query,
    create_dns_query (str_lit "example.org") = Return query
    /\ len query = 29.
Proof.
  apply (X15_dns_query_length (str_lit "example.org")).
  repeat constructor; vm_compute; congruence.
Defined.

Lemma app_same_length_inj {A : Type} (a b r r' : list A) :
  List.length a = List.length b -> a ++ r = b ++ r' -> a = b /\ r = r'.
Proof.
  revert b. induction a as [|x a IH]; intros [|y b] Hl H;
    try discriminate Hl.
  - split; [reflexivity|exact H].
  - cbn [app] in H. injection H as -> H. injection Hl as Hl.
    destruct (IH b Hl H) as [-> ->]. split; reflexivity.
Qed.

Lemma labels_inj (ps qs : list bytes) :
  Forall (fun p => len p <= 255) ps ->
  Forall (fun q => len q <= 255) qs ->
  List.concat (map label_spec ps) = List.concat (map label_spec qs) ->
  ps = qs.
Proof.
  intros Hps. revert qs.
  induction Hps as [|p ps Hp _ IH]; intros qs Hqs H.
  - destruct qs as [|q qs]; [reflexivity|discriminate H].
  - destruct Hqs as [|q qs Hq Hqs]; [discriminate H|].
    cbn [map List.concat label_spec app] in H. injection H as Hlen H.
    apply (f_equal byte_val) in Hlen.
    rewrite !byte_val_of_Z in Hlen
      by (split; [apply len_nonneg|assumption]).
    assert (Hl : List.length p = List.length q) by (unfold len in Hlen; lia).
    destruct (app_same_length_inj _ _ _ _ Hl H) as [-> Hrest].
    f_equal. exact (IH qs Hqs Hrest).
Qed.

Lemma byte_of_N_ascii_inj (p q : str) :
  Forall (fun c => (c < 128)%N) p -> Forall (fun c => (c < 128)%N) q ->
  map byte_of_N p = map byte_of_N q -> p = q.
Proof.
  intros Hp. revert q.
  induction Hp as [|c p Hc _ IH]; intros q Hq H.
  - destruct q; [reflexivity|discriminate H].
  - destruct Hq as [|d q Hd Hq]; [discriminate H|].
    cbn [map] in H. injection H as Hcd H.
    apply (f_equal byte_val) in Hcd. unfold byte_of_N in Hcd.
    rewrite !byte_val_of_Z in Hcd by lia.
    f_equal; [lia|exact (IH q Hq H)].
Qed.

Lemma plain_parts_inj (ps qs : list str) :
  Forall plain_label ps -> Forall plain_label qs ->
  map (map byte_of_N) ps = map (map byte_of_N) qs -> ps = qs.
Proof.
  intros Hps. revert qs.
  induction Hps as [|p ps [_ Hp] _ IH]; intros qs Hqs H.
  - destruct qs; [reflexivity|discriminate H].
  - destruct Hqs as [|q qs [_ Hq] Hqs]; [discriminate H|].
    cbn [map] in H. injection H as Hpq H.
    f_equal; [exact (byte_of_N_ascii_inj p q Hp Hq Hpq)|exact (IH qs Hqs H)].
Qed.

Lemma plain_parts_short (ps : list str) :
  Forall plain_label ps ->
  Forall (fun p => len p <= 255) (map (map byte_of_N) ps).
Proof.
  induction 1 as [|p ps [Hl _] _ IH]; cbn [map]; constructor; [|exact IH].
  unfold len in *. rewrite length_map. exact Hl.
Qed.

(** X16: two domains with ASCII parts of at most 255 characters that give
    the same query are the same domain. *)
Theorem X16_dns_query_injective (d1 d2 : str) :
  Forall plain_label (split_dot d1) ->
  Forall plain_label (split_dot d2) ->
  create_dns_query d1 = create_dns_query d2 ->
  d1 = d2.
Proof.
  intros H1 H2. unfold create_dns_query.
  rewrite dns_header_packed, dns_tail_packed,
    (for_parts_plain _ H1 []), (for_parts_plain _ H2 []).
  cbn [rbind app]. intros H. injection H as H.
  apply app_inv_tail, app_inv_tail in H.
  apply labels_inj in H; try (apply plain_parts_short; assumption).
  apply plain_parts_inj in H; try assumption.
  rewrite <- (join_split_dot d1), <- (join_split_dot d2), H. reflexivity.
Qed.

Lemma X16_dns_query_injective_witness :
  str_lit "a.b" = str_lit "a.b".
Proof.
  apply (X16_dns_query_injective (str_lit "a.b") (str_lit "a.b"));
    try reflexivity; repeat constructor; vm_compute; congruence.
Defined.

(** ** The authentication request: framing *)

Lemma encode_auth_request_inv (u p : str) (req : bytes) :
  encode_auth_request u p = Return req ->
  exists ub pb,
    encode_utf8 u = Return ub /\ encode_utf8 p = Return pb
    /\ len ub <= 255 /\ len pb <= 255
    /\ req = [x01; byte_of_Z (len ub)] ++ ub ++ [byte_of_Z (len pb)] ++ pb.
Proof.
  unfold encode_auth_request.
  destruct (encode_utf8 u) as [ub|e|c]; cbn [rbind]; try discriminate.
  destruct (encode_utf8 p) as [pb|e|c]; cbn [rbind]; try discriminate.
  pose proof (len_nonneg ub) as Hub. pose proof (len_nonneg pb) as Hpb.
  rewrite (struct_pack_cons_B 1) by lia.
  destruct (Z_le_gt_dec (len ub) 255) as [Hu|Hu].
  2: { rewrite struct_pack_B_too_big by lia. discriminate. }
  rewrite struct_pack_B by lia. cbn [rbind].
  destruct (Z_le_gt_dec (len pb) 255) as [Hp|Hp].
  2: { rewrite struct_pack_B_too_big by lia. discriminate. }
  rewrite struct_pack_B by lia. cbn [rbind].
  intros H. injection H as <-. exists ub, pb. repeat split; assumption.
Qed.

(** X17: the authentication request determines both encoded credentials:
    two pairs that give the same request have the same user-name bytes
    and the same password bytes, and the request has three bytes more
    than the two together. *)
Theorem X17_auth_request_unambiguous (u1 p1 u2 p2 : str) (req : bytes) :
  encode_auth_request u1 p1 = Return req ->
  encode_auth_request u2 p2 = Return req ->
  encode_utf8 u1 = encode_utf8 u2 /\ encode_utf8 p1 = encode_utf8 p2
  /\ exists ub pb,
       encode_utf8 u1 = Return ub /\ encode_utf8 p1 = Return pb
       /\ len req = 3 + len ub + len pb.
Proof.
  intros H1 H2.
  apply encode_auth_request_inv in H1, H2.
  destruct H1 as (ub1 & pb1 & Hu1 & Hp1 & Hlu1 & Hlp1 & ->).
  destruct H2 as (ub2 & pb2 & Hu2 & Hp2 & Hlu2 & Hlp2 & H).
  cbn [app] in H. injection H as Hlen H.
  apply (f_equal byte_val) in Hlen.
  rewrite !byte_val_of_Z in Hlen by (split; [apply len_nonneg|assumption]).
  assert (Hl : List.length ub1 = List.length ub2)
    by (unfold len in Hlen; lia).
  destruct (app_same_length_inj _ _ _ _ Hl H) as [-> Hrest].
  injection Hrest as _ ->.
  rewrite Hu1, Hu2, Hp1, Hp2. repeat split.
  exists ub2, pb2. repeat split.
  cbn [app]. rewrite !len_cons, len_app, len_cons. lia.
Qed.

Lemma X17_auth_request_unambiguous_witness :
  exists ub pb,
    encode_utf8 (str_lit "user") = Return ub
    /\ encode_utf8 (str_lit "secret") = Return pb
    /\ len [x01; x04; x75; x73; x65; x72; x06; x73; x65; x63; x72; x65; x74]
       = 3 + len ub + len pb.
Proof.
  apply (X17_auth_request_unambiguous
           (str_lit "user") (str_lit "secret")
           (str_lit "user") (str_lit "secret")
           [x01; x04; x75; x73; x65; x72; x06; x73; x65; x63; x72; x65; x74]);
    reflexivity.
Defined.

(** ** connect_socks5: what is sent, and malformed answers *)

Lemma log_bind {A B : Type} (m : M A) (f : A -> M B) (s : state) :
  log (bind m f s)
  = log (m s) ++ match res (m s) with
                 | Return a => log (f a (final (m s)))
                 | _ => []
                 end.
Proof.
  unfold bind. destruct (m s) as [[[a|e|c] s1] l1];
    cbn [res log final fst snd]; rewrite ?app_nil_r; try reflexivity.
  destruct (f a s1) as [[r s2] l2]. reflexivity.
Qed.

Lemma res_bind {A B : Type} (m : M A) (f : A -> M B) (s : state) :
  res (bind m f s)
  = match res (m s) with
    | Return a => res (f a (final (m s)))
    | Raise e => Raise e
    | Exit c => Exit c
    end.
Proof.
  unfold bind. destruct (m s) as [[[a|e|c] s1] l1];
    cbn [res log final fst snd]; try reflexivity.
  destruct (f a s1) as [[r s2] l2]. reflexivity.
Qed.

Lemma greeting_packed (c : bool) :
  (if c
   then struct_pack [B; B; B; B]
          [SOCKS5.VERSION; 2; SOCKS5.AUTH_NONE; SOCKS5.AUTH_USERPASS]
   else struct_pack [B; B; B] [SOCKS5.VERSION; 1; SOCKS5.AUTH_NONE])
  = Return (greeting_spec c).
Proof. destruct c; reflexivity. Qed.

Lemma sendall_run (sk : socket) (data : bytes) (s : state) :
  sendall sk data s
  = let s' := set_tcp_sendall_faults (tl (tcp_sendall_faults s)) s in
    match hd None (tcp_sendall_faults s) with
    | Some e => (Raise e, s', [])
    | None => (Return tt, s', [Sendall data])
    end.
Proof. reflexivity. Qed.

(** X2: whatever the server does afterwards, the first operation of
    [connect_socks5] is to send the greeting: 05 01 00 without
    credentials, 05 02 00 02 when user name and password are both
    non-empty.  If that send fails, its error is raised and nothing else
    happens. *)
Theorem X2_greeting_first (sk : socket) (s : state)
    (username password : option str) :
  let out := connect_socks5 sk username password s in
  match hd None (tcp_sendall_faults s) with
  | Some e => res out = Raise e /\ log out = []
  | None =>
      exists l,
        log out
        = Sendall (greeting_spec (has_credentials username password)) :: l
  end.
Proof.
  cbv zeta. unfold connect_socks5.
  fold (has_credentials username password). rewrite greeting_packed.
  rewrite res_bind, log_bind. cbn [lift res log final fst snd app].
  rewrite res_bind, log_bind, sendall_run.
  destruct (hd None (tcp_sendall_faults s)) as [e|];
    cbn [res log final fst snd app].
  - split; reflexivity.
  - eexists. reflexivity.
Qed.

(** X1: an answer to the greeting that is shorter than two bytes raises
    "Invalid handshake response", and one whose first byte is not 5 raises
    "Unsupported SOCKS version: N"; in both cases nothing is sent after
    the greeting. *)
Theorem X1_handshake_malformed (sk : socket) (s : state)
    (username password : option str) (data : bytes)
    (rest : list recv_event) :
  send_ok s ->
  tcp_inbox s = RecvData data :: rest ->
  let out := connect_socks5 sk username password s in
  let greeting := greeting_spec (has_credentials username password) in
  ((List.length data < 2)%nat ->
   res out = Raise (ConnectionError "Invalid handshake response")
   /\ log out = [Sendall greeting; Recv 2 data])
  /\ (forall v m extra,
        data = v :: m :: extra -> v <> x05 ->
        res out = Raise (ConnectionError
                           ("Unsupported SOCKS version: "
                            ++ str_of_int (byte_val v)))
        /\ log out = [Sendall greeting; Recv 2 [v; m]]).
Proof.
  destruct s as [f1 f2 fs inbox f3 f4 ui ts]. unfold send_ok. simpl.
  intros Hs ->. unfold connect_socks5.
  fold (has_credentials username password). split.
  - intros Hlen.
    destruct data as [|a [|b data]]; [| |cbn [List.length] in Hlen; lia];
      destruct (has_credentials username password);
      exec; rewrite Hs; exec; split; reflexivity.
  - intros v m extra -> Hv. apply byte_val_neqb in Hv.
    change (byte_val x05) with 5 in Hv.
    destruct (has_credentials username password);
      exec; rewrite Hs; exec; unfold SOCKS5.VERSION; rewrite Hv;
      split; reflexivity.
Qed.

Lemma X1_handshake_malformed_witness :
  res (connect_socks5 (sock SOCK_STREAM) None None
         (set_tcp_inbox [RecvData [x04; x5a]] quiet_network))
  = Raise (ConnectionError "Unsupported SOCKS version: 4")
  /\ res (connect_socks5 (sock SOCK_STREAM) None None
            (set_tcp_inbox [RecvData [x05]] quiet_network))
     = Raise (ConnectionError "Invalid handshake response").
Proof.
  split.
  - destruct (X1_handshake_malformed (sock SOCK_STREAM)
                (set_tcp_inbox [RecvData [x04; x5a]] quiet_network)
                None None [x04; x5a] [] eq_refl eq_refl) as [_ Hversion].
    apply (Hversion x04 x5a [] eq_refl). discriminate.
  - destruct (X1_handshake_malformed (sock SOCK_STREAM)
                (set_tcp_inbox [RecvData [x05]] quiet_network)
                None None [x05] [] eq_refl eq_refl) as [Hshort _].
    apply Hshort. cbn. lia.
Defined.

(** X3: when the server selects username/password authentication and the
    request cannot be built from the credentials (too long, or not
    encodable), [connect_socks5] raises that error and sends nothing
    after the greeting. *)
Theorem X3_credentials_not_encodable (sk : socket) (s : state) (u p : str)
    (e : exn) (rest : list recv_event) :
  send_ok s ->
  tcp_inbox s = RecvData [x05; x02] :: rest ->
  has_credentials (Some u) (Some p) = true ->
  encode_auth_request u p = Raise e ->
  let out := connect_socks5 sk (Some u) (Some p) s in
  res out = Raise e /\ log out = hello (Some u) (Some p) x02.
Proof.
  destruct s as [f1 f2 fs inbox f3 f4 ui ts]. unfold send_ok. simpl.
  intros Hs -> Hc He. unfold connect_socks5, hello.
  fold (has_credentials (Some u) (Some p)). rewrite Hc.
  destruct u as [|c u]; [discriminate Hc|].
  destruct p as [|c' p]; [discriminate Hc|].
  exec. rewrite Hs. exec. rewrite He. split; reflexivity.
Qed.

Lemma X3_credentials_not_encodable_witness :
  res (connect_socks5 (sock SOCK_STREAM)
         (Some (repeat 97%N 256)) (Some (str_lit "secret"))
         (set_tcp_inbox [RecvData [x05; x02]] quiet_network))
  = Raise struct_error.
Proof.
  apply (X3_credentials_not_encodable (sock SOCK_STREAM)
           (set_tcp_inbox [RecvData [x05; x02]] quiet_network)
           (repeat 97%N 256) (str_lit "secret") struct_error []
           eq_refl eq_refl eq_refl).
  vm_compute. reflexivity.
Defined.

Ltac greeting_sent :=
  unfold handshake_send;
  first [ exact I
        | left;
          match goal with
          | H : has_credentials _ _ = _ |- _ => rewrite H
          end; reflexivity ].

Ltac auth_sent :=
  unfold handshake_send; right; split;
  [ eexists _, _; reflexivity
  | eexists _, _; repeat split; eassumption ].

Ltac sends_done :=
  repeat first [ apply Forall_nil
               | apply Forall_cons; [first [greeting_sent | auth_sent]|] ].

Ltac crunch :=
  repeat (exec;
          match goal with
          | |- context [match encode_auth_request ?u ?p with _ => _ end] =>
              destruct (encode_auth_request u p) eqn:?
          | |- context [match hd None ?l with _ => _ end] =>
              destruct (hd None l)
          | |- context [match ?x with _ => _ end] => is_var x; destruct x
          | |- context [if ?c then _ else _] => destruct c eqn:?
          end).

Lemma handshake_sends (sk : socket) (s : state)
    (username password : option str) :
  Forall (handshake_send s username password)
    (log (connect_socks5 sk username password s)).
Proof.
  destruct s as [f1 f2 fs inbox f3 f4 ui ts].
  unfold connect_socks5. fold (has_credentials username password).
  destruct (has_credentials username password) eqn:Hc;
    (exec; destruct (hd None fs) as [e|]; exec; [constructor|];
     destruct inbox as [|[data|e] rest]; [exec; sends_done| |exec; sends_done];
     destruct data as [|a [|b data]]; [exec; sends_done|exec; sends_done|];
     exec; unfold SOCKS5.VERSION, SOCKS5.AUTH_USERPASS;
     destruct (Z.eqb_spec (byte_val a) 5) as [Ha|Ha]; [|exec; sends_done];
     destruct (Z.eqb_spec (byte_val b) 255) as [Hb|Hb]; [exec; sends_done|];
     destruct (Z.eqb_spec (byte_val b) 2) as [Hb2|Hb2]; [|exec; sends_done];
     apply (byte_val_inj a x05) in Ha; apply (byte_val_inj b x02) in Hb2;
     subst a b;
     crunch; try discriminate Hc; sends_done).
Qed.

(** X18: on every network, whatever [connect_socks5] sends is either the
    greeting or the authentication request built from the credentials it
    was given, and the latter is sent only when both credentials are
    non-empty and the server's answer to the greeting was version 5,
    method 2. *)
Theorem X18_credentials_only_on_request (sk : socket) (s : state)
    (username password : option str) (d : bytes) :
  In (Sendall d) (log (connect_socks5 sk username password s)) ->
  d = greeting_spec (has_credentials username password)
  \/ (credentials_requested s
      /\ exists u p, username = Some u /\ password = Some p
                     /\ has_credentials username password = true
                     /\ encode_auth_request u p = Return d).
Proof.
  intros Hin.
  pose proof (handshake_sends sk s username password) as Hall.
  rewrite Forall_forall in Hall. exact (Hall _ Hin).
Qed.

Lemma X18_credentials_only_on_request_witness :
  [x01; x01; x75; x01; x70] = greeting_spec true
  \/ (credentials_requested
        (set_tcp_inbox [RecvData [x05; x02]; RecvData [x01; x00]]
           quiet_network)
      /\ exists u p,
           Some (str_lit "u") = Some u /\ Some (str_lit "p") = Some p
           /\ has_credentials (Some (str_lit "u")) (Some (str_lit "p")) = true
           /\ encode_auth_request u p = Return [x01; x01; x75; x01; x70]).
Proof.
  apply (X18_credentials_only_on_request (sock SOCK_STREAM)
           (set_tcp_inbox [RecvData [x05; x02]; RecvData [x01; x00]]
              quiet_network)
           (Some (str_lit "u")) (Some (str_lit "p"))
           [x01; x01; x75; x01; x70]).
  right. right. left. reflexivity.
Defined.

(** ** request_udp_associate: the request, malformed answers, short reads *)

(** X4: whatever the server does afterwards, the first operation of
    [request_udp_associate] is to send the fixed ten-byte request
    05 03 00 01 00 00 00 00 00 00; if that send fails, its error is raised
    and nothing else happens. *)
Theorem X4_associate_request_first (sk : socket) (s : state) :
  let out := request_udp_associate sk s in
  match hd None (tcp_sendall_faults s) with
  | Some e => res out = Raise e /\ log out = []
  | None => exists l, log out = Sendall associate_request :: l
  end.
Proof.
  cbv zeta. unfold request_udp_associate.
  do 3 (rewrite res_bind, log_bind; simpl (struct_pack _ _);
        cbn [lift res log final fst snd app]).
  rewrite res_bind, log_bind, sendall_run.
  destruct (hd None (tcp_sendall_faults s)) as [e|];
    cbn [res log final fst snd app].
  - split; reflexivity.
  - eexists. reflexivity.
Qed.

(** X5: a response header shorter than four bytes raises "Invalid UDP
    ASSOCIATE response"; a header whose first byte is not 5 raises
    "Invalid SOCKS version: N", whatever its reply code; in both cases
    nothing more is read. *)
Theorem X5_associate_malformed (sk : socket) (s : state) (data : bytes)
    (rest : list recv_event) :
  send_ok s ->
  tcp_inbox s = RecvData data :: rest ->
  let out := request_udp_associate sk s in
  ((List.length data < 4)%nat ->
   res out = Raise (ConnectionError "Invalid UDP ASSOCIATE response")
   /\ log out = [Sendall associate_request; Recv 4 data])
  /\ (forall v r rsv atyp extra,
        data = v :: r :: rsv :: atyp :: extra -> v <> x05 ->
        res out = Raise (ConnectionError
                           ("Invalid SOCKS version: "
                            ++ str_of_int (byte_val v)))
        /\ log out = [Sendall associate_request; Recv 4 [v; r; rsv; atyp]]).
Proof.
  destruct s as [f1 f2 fs inbox f3 f4 ui ts]. unfold send_ok. simpl.
  intros Hs ->. unfold request_udp_associate. split.
  - intros Hlen.
    destruct data as [|a [|b [|c [|d data]]]];
      [| | | |cbn [List.length] in Hlen; lia];
      exec; rewrite Hs; exec; split; reflexivity.
  - intros v r rsv atyp extra -> Hv. apply byte_val_neqb in Hv.
    change (byte_val x05) with 5 in Hv.
    exec. rewrite Hs. exec. unfold SOCKS5.VERSION. rewrite Hv.
    split; reflexivity.
Qed.

Lemma X5_associate_malformed_witness :
  res (request_udp_associate (sock SOCK_STREAM)
         (set_tcp_inbox [RecvData [x04; x5b; x00; x01]] quiet_network))
  = Raise (ConnectionError "Invalid SOCKS version: 4")
  /\ res (request_udp_associate (sock SOCK_STREAM)
            (set_tcp_inbox [RecvData [x05; x00]] quiet_network))
     = Raise (ConnectionError "Invalid UDP ASSOCIATE response").
Proof.
  split.
  - destruct (X5_associate_malformed (sock SOCK_STREAM)
                (set_tcp_inbox [RecvData [x04; x5b; x00; x01]] quiet_network)
                [x04; x5b; x00; x01] [] eq_refl eq_refl) as [_ Hversion].
    apply (Hversion x04 x5b x00 x01 [] eq_refl). discriminate.
  - destruct (X5_associate_malformed (sock SOCK_STREAM)
                (set_tcp_inbox [RecvData [x05; x00]] quiet_network)
                [x05; x00] [] eq_refl eq_refl) as [Hshort _].
    apply Hshort. cbn. lia.
Defined.

(** X6: after a non-zero reply code, nothing more is read: the run
    consists of sending the request and reading the four header bytes,
    and the bytes that followed the header stay unread. *)
Theorem X6_refusal_reads_no_address (sk : socket) (s : state)
    (r rsv atyp : byte) (extra : bytes) (rest : list recv_event) :
  send_ok s ->
  tcp_inbox s = RecvData ([x05; r; rsv; atyp] ++ extra) :: rest ->
  r <> x00 ->
  let out := request_udp_associate sk s in
  log out = [Sendall associate_request; Recv 4 [x05; r; rsv; atyp]]
  /\ tcp_inbox (final out) = match extra with
                             | [] => rest
                             | _ :: _ => RecvData extra :: rest
                             end.
Proof.
  destruct s as [f1 f2 fs inbox f3 f4 ui ts]. unfold send_ok. simpl.
  intros Hs -> Hr. unfold request_udp_associate.
  apply byte_val_neqb in Hr. change (byte_val x00) with 0 in Hr.
  exec. rewrite Hs. exec. unfold SOCKS5.REP_SUCCESS. rewrite Hr.
  destruct extra; split; reflexivity.
Qed.

Lemma X6_refusal_reads_no_address_witness :
  log (request_udp_associate (sock SOCK_STREAM)
         (set_tcp_inbox
            [RecvData [x05; x07; x00; x01; x00; x00; x00; x00; x00; x00]]
            quiet_network))
  = [Sendall associate_request; Recv 4 [x05; x07; x00; x01]].
Proof.
  apply (X6_refusal_reads_no_address (sock SOCK_STREAM)
           (set_tcp_inbox
              [RecvData [x05; x07; x00; x01; x00; x00; x00; x00; x00; x00]]
              quiet_network)
           x07 x00 x01 [x00; x00; x00; x00; x00; x00] [] eq_refl eq_refl).
  discriminate.
Defined.

Lemma returns_ret {A : Type} (Q : A -> Prop) (a : A) : Q a -> returns Q (ret a).
Proof. intros H s b Hb. cbn in Hb. injection Hb as <-. exact H. Qed.

Lemma returns_raise {A : Type} (Q : A -> Prop) (e : exn) : returns Q (raise e).
Proof. intros s b Hb. discriminate Hb. Qed.

Lemma returns_bind {A B : Type} (P : A -> Prop) (Q : B -> Prop)
    (m : M A) (f : A -> M B) :
  returns P m -> (forall a, P a -> returns Q (f a)) -> returns Q (bind m f).
Proof.
  intros Hm Hf s b Hb. rewrite res_bind in Hb.
  destruct (res (m s)) as [a|e|c] eqn:E; try discriminate Hb.
  exact (Hf a (Hm s a E) _ b Hb).
Qed.

Lemma returns_any {A : Type} (m : M A) : returns (fun _ => True) m.
Proof. intros s a _. exact I. Qed.

Lemma returns_lift {A : Type} (Q : A -> Prop) (r : result A) :
  (forall a, r = Return a -> Q a) -> returns Q (lift r).
Proof. intros H s a Ha. apply H. exact Ha. Qed.

Lemma unpack_H_range (data : bytes) (l : list Z) :
  struct_unpack [H] data = Return l -> Forall (fun v => 0 <= v <= 65535) l.
Proof.
  unfold struct_unpack.
  destruct (Nat.eqb (List.length data) (calcsize [H])) eqn:E;
    [|discriminate].
  intros Hl. injection Hl as <-.
  destruct data as [|hi [|lo [|x data]]]; try discriminate E.
  cbn [unpack_fields]. constructor; [|constructor].
  rewrite shiftl_8.
  pose proof (byte_val_range hi). pose proof (byte_val_range lo). lia.
Qed.

Ltac returns_tac :=
  repeat first
    [ apply returns_raise
    | match goal with
      | |- returns _ (bind (lift (struct_unpack [H] _)) _) =>
          eapply returns_bind;
          [apply returns_lift; intros ? Hunpack;
           exact (unpack_H_range _ _ Hunpack)
          |intros ? ?]
      | |- returns _ (bind _ _) =>
          eapply returns_bind; [apply returns_any|intros ? _]
      | |- returns _ (if ?c then _ else _) => destruct c
      | |- returns _ (match ?x with _ => _ end) => destruct x
      end ].

Lemma associate_port_range (sk : socket) :
  returns (fun endpoint : str * Z => 0 <= snd endpoint <= 65535)
    (request_udp_associate sk).
Proof.
  unfold request_udp_associate. returns_tac.
  apply returns_ret. cbn [snd].
  match goal with H : Forall _ [_] |- _ => inversion H; assumption end.
Qed.

(** X7: on every network, a relay endpoint returned by
    [request_udp_associate] has a port between 0 and 65535. *)
Theorem X7_relay_port_range (sk : socket) (s : state) (relay_host : str)
    (relay_port : Z) :
  res (request_udp_associate sk s) = Return (relay_host, relay_port) ->
  0 <= relay_port <= 65535.
Proof.
  intros H. exact (associate_port_range sk s (relay_host, relay_port) H).
Qed.

Lemma X7_relay_port_range_witness : 0 <= 5000 <= 65535.
Proof.
  apply (X7_relay_port_range (sock SOCK_STREAM)
           (set_tcp_inbox
              [RecvData [x05; x00; x00; x01; x01; x02; x03; x04; x13; x88]]
              quiet_network)
           (str_lit "1.2.3.4") 5000).
  reflexivity.
Defined.

(** X8: the length of a domain name is not checked against what was read.
    When the response stops inside the name, the bytes that did arrive
    are taken as the whole name and the next two bytes to arrive are
    taken as the port: the call returns an endpoint instead of failing. *)
Theorem X8_truncated_domain_accepted (sk : socket) (s : state)
    (rsv n p1 p2 : byte) (part more : bytes) (rest : list recv_event)
    (host : str) :
  send_ok s ->
  tcp_inbox s
  = RecvData ([x05; x00; rsv; x03; n] ++ part)
    :: RecvData (p1 :: p2 :: more) :: rest ->
  part <> [] ->
  len part < byte_val n ->
  decode_utf8 part = Return host ->
  res (request_udp_associate sk s) = Return (host, port_of p1 p2).
Proof.
  destruct s as [f1 f2 fs inbox f3 f4 ui ts]. unfold send_ok. simpl.
  intros Hs -> Hne Hl Hd. unfold request_udp_associate, port_of.
  assert (Hf : firstn (Z.to_nat (byte_val n)) part = part).
  { apply firstn_all2. unfold len in Hl. lia. }
  assert (Hk : skipn (Z.to_nat (byte_val n)) part = []).
  { apply skipn_all2. unfold len in Hl. lia. }
  destruct part as [|b part]; [contradiction|].
  exec. rewrite Hs. exec. rewrite Hf, Hk, Hd. exec.
  rewrite shiftl_8. reflexivity.
Qed.

Lemma X8_truncated_domain_accepted_witness :
  res (request_udp_associate (sock SOCK_STREAM)
         (set_tcp_inbox
            [RecvData [x05; x00; x00; x03; x0b; x65; x78; x61; x6d];
             RecvData [x70; x6c; x65; x2e; x63; x6f; x6d; x13; x88]]
            quiet_network))
  = Return (str_lit "exam", port_of x70 x6c).
Proof.
  apply (X8_truncated_domain_accepted (sock SOCK_STREAM)
           (set_tcp_inbox
              [RecvData [x05; x00; x00; x03; x0b; x65; x78; x61; x6d];
               RecvData [x70; x6c; x65; x2e; x63; x6f; x6d; x13; x88]]
              quiet_network)
           x00 x0b x70 x6c [x65; x78; x61; x6d]
           [x65; x2e; x63; x6f; x6d; x13; x88] [] (str_lit "exam"));
    try reflexivity; discriminate.
Defined.

(** X9: an IPv4 address of which fewer than four bytes arrive makes
    [inet_ntoa] raise [OSError], and a port of which only one byte
    arrives makes [struct.unpack] raise [struct.error]: short reads of
    these fields are neither retried nor accepted. *)
Theorem X9_short_address_or_port (sk : socket) (s : state)
    (rsv : byte) (rest : list recv_event) :
  send_ok s ->
  (forall part,
     tcp_inbox s = RecvData ([x05; x00; rsv; x01] ++ part) :: rest ->
     part <> [] -> (List.length part < 4)%nat ->
     res (request_udp_associate sk s)
     = Raise (OSError "packed IP wrong length for inet_ntoa"))
  /\ (forall a b c d p1,
        tcp_inbox s
        = RecvData ([x05; x00; rsv; x01] ++ [a; b; c; d] ++ [p1]) :: rest ->
        res (request_udp_associate sk s) = Raise struct_error).
Proof.
  destruct s as [f1 f2 fs inbox f3 f4 ui ts]. unfold send_ok. simpl.
  intros Hs. split.
  - intros part -> Hne Hlen. unfold request_udp_associate.
    destruct part as [|a [|b [|c [|d part]]]];
      [contradiction| | | |cbn [List.length] in Hlen; lia];
      exec; rewrite Hs; exec; reflexivity.
  - intros a b c d p1 ->. unfold request_udp_associate.
    exec. rewrite Hs. exec. reflexivity.
Qed.

Lemma X9_short_address_or_port_witness :
  res (request_udp_associate (sock SOCK_STREAM)
         (set_tcp_inbox [RecvData [x05; x00; x00; x01; x01; x02]]
            quiet_network))
  = Raise (OSError "packed IP wrong length for inet_ntoa").
Proof.
  destruct (X9_short_address_or_port (sock SOCK_STREAM)
              (set_tcp_inbox [RecvData [x05; x00; x00; x01; x01; x02]]
                 quiet_network) x00 [] eq_refl) as [Haddr _].
  apply (Haddr [x01; x02] eq_refl); [discriminate|cbn; lia].
Defined.

(** ** test_udp_relay: the socket and the errors *)





(** ** check_udp_support: order of the stages *)

Lemma probe_sendto (h : str) (p : Z) (t : Q) (s : state)
    (data : bytes) (h' : str) (p' : Z) :
  In (Sendto data h' p') (log (test_udp_relay h p t s)) ->
  data = probe_packet /\ h' = h /\ p' = p.
Proof.
  intros Hin. pose proof (probe_runs h p t s) as Hrun. cbv zeta in Hrun.
  destruct (udp_socket_fault s) as [e|].
  { destruct Hrun as [_ Hl]. rewrite Hl in Hin. destruct Hin. }
  destruct (Qle_bool 0 t).
  2: { destruct Hrun as [_ Hl]. rewrite Hl in Hin. in_log Hin. }
  destruct (udp_sendto_fault s) as [e|].
  { destruct Hrun as [_ Hl]. rewrite Hl in Hin. in_log Hin. }
  destruct Hrun as [io [Hl Hio]]. rewrite Hl in Hin. cbn [app] in Hin.
  destruct Hin as [Hin|[Hin|[Hin|Hin]]]; try discriminate Hin.
  - injection Hin as <- <- <-. repeat split; reflexivity.
  - exfalso.
    destruct (udp_inbox s) as [|[d|e] rest]; destruct Hio as [_ ->];
      in_log Hin.
Qed.

Lemma tcp_io_not_udp (io : list event) (ev : event) :
  Forall is_tcp_io io -> In ev io -> on_udp ev -> False.
Proof.
  intros Hio Hin Hudp. rewrite Forall_forall in Hio.
  specialize (Hio ev Hin). destruct ev as [k|k t| | | | | |k];
    try contradiction; destruct k; contradiction.
Qed.

(** The log of a check, cut at the probe. *)
Lemma check_log_parts (host : str) (port : Z) (username password : option str)
    (verbose : bool) (s : state) (ev : event) :
  let before := reach_probe host port username password (set_tcp_sock None s) in
  In ev (log (check_udp_support host port username password verbose s)) ->
  ev = Socket SOCK_STREAM \/ ev = Settimeout SOCK_STREAM 10
  \/ ev = Close SOCK_STREAM \/ is_tcp_io ev
  \/ exists h p,
       res before = Return (h, p)
       /\ In ev (log (test_udp_relay h p default_timeout (final before))).
Proof.
  cbv zeta. intros Hin.
  pose proof (check_shape host port username password verbose s)
    as (udp & _ & Hreach & Hshape).
  cbv zeta in Hreach, Hshape.
  destruct (tcp_socket_fault s) as [e|].
  { destruct Hshape as (Hl & _). rewrite Hl in Hin. destruct Hin. }
  destruct Hshape as (Hl & io & Hio & Hf). rewrite Hl, Hio in Hin.
  apply in_app_or in Hin. destruct Hin as [Hin|Hin].
  - cbn [app] in Hin. destruct Hin as [<-|[<-|Hin]]; auto.
    right. right. right. left. rewrite Forall_forall in Hf. exact (Hf _ Hin).
  - apply in_app_or in Hin. destruct Hin as [Hin|[<-|[]]]; auto.
    right. right. right. right.
    destruct (res (reach_probe host port username password
                     (set_tcp_sock None s))) as [[h p]|e|c].
    + destruct Hreach as [-> _]. exists h, p. split; [reflexivity|exact Hin].
    + subst udp. destruct Hin.
    + subst udp. destruct Hin.
Qed.

(** X12: a check touches a UDP socket only after [request_udp_associate]
    has returned a relay endpoint: when the connection, the handshake or
    the association fails, no UDP socket is created and nothing is sent
    over UDP. *)
Theorem X12_no_probe_without_endpoint (host : str) (port : Z)
    (username password : option str) (verbose : bool) (s : state)
    (ev : event) :
  In ev (log (check_udp_support host port username password verbose s)) ->
  on_udp ev ->
  exists relay_host relay_port,
    res (reach_probe host port username password (set_tcp_sock None s))
    = Return (relay_host, relay_port).
Proof.
  intros Hin Hudp.
  destruct (check_log_parts host port username password verbose s ev Hin)
    as [->|[->|[->|[Htcp|(h & p & Hres & _)]]]]; try contradiction.
  - destruct ev as [k|k t| | | | | |k]; try contradiction;
      destruct k; contradiction.
  - exists h, p. exact Hres.
Qed.

Lemma X12_no_probe_without_endpoint_witness :
  exists relay_host relay_port,
    res (reach_probe (str_lit "proxy") 1080 None None
           (set_tcp_sock None
              (set_tcp_inbox
                 [RecvData [x05; x00];
                  RecvData [x05; x00; x00; x01; x01; x02; x03; x04; x13; x88]]
                 quiet_network)))
    = Return (relay_host, relay_port).
Proof.
  apply (X12_no_probe_without_endpoint (str_lit "proxy") 1080 None None false
           (set_tcp_inbox
              [RecvData [x05; x00];
               RecvData [x05; x00; x00; x01; x01; x02; x03; x04; x13; x88]]
              quiet_network)
           (Socket SOCK_DGRAM)).
  - vm_compute. do 9 right. left. reflexivity.
  - exact I.
Defined.



(** X14: every datagram a check sends is the probe packet, and it goes to
    the host and port that [request_udp_associate] returned. *)
Theorem X14_probe_goes_to_relay (host : str) (port : Z)
    (username password : option str) (verbose : bool) (s : state)
    (data : bytes) (h : str) (p : Z) :
  In (Sendto data h p)
     (log (check_udp_support host port username password verbose s)) ->
  data = probe_packet
  /\ res (reach_probe host port username password (set_tcp_sock None s))
     = Return (h, p).
Proof.
  intros Hin.
  destruct (check_log_parts host port username password verbose s _ Hin)
    as [H|[H|[H|[H|(h' & p' & Hres & Hp)]]]]; try discriminate H;
    try contradiction.
  apply probe_sendto in Hp. destruct Hp as (-> & -> & ->).
  split; [reflexivity|exact Hres].
Qed.

Lemma X14_probe_goes_to_relay_witness :
  probe_packet = probe_packet
  /\ res (reach_probe (str_lit "proxy") 1080 None None
            (set_tcp_sock None
               (set_tcp_inbox
                  [RecvData [x05; x00];
                   RecvData [x05; x00; x00; x01; x01; x02; x03; x04; x13; x88]]
                  quiet_network)))
     = Return (str_lit "1.2.3.4", 5000).
Proof.
  apply (X14_probe_goes_to_relay (str_lit "proxy") 1080 None None false
           (set_tcp_inbox
              [RecvData [x05; x00];
               RecvData [x05; x00; x00; x01; x01; x02; x03; x04; x13; x88]]
              quiet_network)).
  vm_compute. do 11 right. left. reflexivity.
Defined.



(** ** main *)

Lemma main_runs (a : args) (s : state) :
  let check := check_udp_support (host a) (port a) (username a) (password a)
                 (negb (quiet a)) s in
  log (main a s) = log check
  /\ res (main a s) = match res check with
                      | Return true => Exit 0
                      | Return false => Exit 1
                      | Raise e => Raise e
                      | Exit c => Exit c
                      end.
Proof.
  cbv zeta. unfold main. rewrite log_bind, res_bind.
  destruct (res (check_udp_support (host a) (port a) (username a)
                   (password a) (negb (quiet a)) s)) as [[|]|e|c];
    cbn [sys_exit res log fst snd]; rewrite ?app_nil_r; split; reflexivity.
Qed.



(** X21: the timeouts of a run of [main] do not depend on its arguments:
    the TCP socket always gets 10 seconds and the UDP socket always the
    default 5 seconds, whatever the value parsed for [--timeout]. *)
Theorem X21_timeouts_fixed (a : args) (s : state) (k : kind) (t : Q) :
  In (Settimeout k t) (log (main a s)) ->
  (k = SOCK_STREAM /\ t = 10%Q) \/ (k = SOCK_DGRAM /\ t = default_timeout).
Proof.
  intros Hin. pose proof (main_runs a s) as [Hlog _]. cbv zeta in Hlog.
  rewrite Hlog in Hin.
  destruct (check_log_parts (host a) (port a) (username a) (password a)
              (negb (quiet a)) s _ Hin)
    as [H|[H|[H|[H|(h & p & _ & Hp)]]]]; try discriminate H;
    try contradiction.
  - injection H as -> ->. left. split; reflexivity.
  - right.
    pose proof (probe_runs h p default_timeout
                  (final (reach_probe (host a) (port a) (username a)
                            (password a) (set_tcp_sock None s)))) as Hrun.
    cbv zeta in Hrun. change (Qle_bool 0 default_timeout) with true in Hrun.
    destruct (udp_socket_fault _) as [e|].
    { destruct Hrun as [_ Hl]. rewrite Hl in Hp. destruct Hp. }
    destruct (udp_sendto_fault _) as [e|].
    { destruct Hrun as [_ Hl]. rewrite Hl in Hp.
      destruct Hp as [Hp|[Hp|[Hp|[]]]]; try discriminate Hp.
      injection Hp as <- <-. split; reflexivity. }
    destruct Hrun as [io [Hl Hio]]. rewrite Hl in Hp. cbn [app] in Hp.
    destruct Hp as [Hp|[Hp|[Hp|Hp]]]; try discriminate Hp.
    + injection Hp as <- <-. split; reflexivity.
    + exfalso.
      destruct (udp_inbox _) as [|[d|e] rest]; destruct Hio as [_ ->];
        in_log Hp.
Qed.

Lemma X21_timeouts_fixed_witness :
  (SOCK_DGRAM = SOCK_STREAM /\ default_timeout = 10%Q)
  \/ (SOCK_DGRAM = SOCK_DGRAM /\ default_timeout = default_timeout).
Proof.
  apply (X21_timeouts_fixed
           (mkArgs (str_lit "proxy") 1080 None None true (1 # 2))
           (set_tcp_inbox
              [RecvData [x05; x00];
               RecvData [x05; x00; x00; x01; x01; x02; x03; x04; x13; x88]]
              quiet_network)).
  vm_compute. do 10 right. left. reflexivity.
Defined.

(** ** A whole check that succeeds *)



